(** * Kids Story-Teller: conversation engine

    A shallow embedding of the stateful core of the service:
    - [app/core/safety_filter.py]: the three content filters and their manager;
    - [app/core/session_manager.py]: session records and the two stores;
    - [app/services/story_service.py], [app/services/tutor_service.py]: the
      turn operations built on them.

    Conventions of the embedding.
    - Python [str] is [string]. Characters are read as ASCII: case mapping,
      the regex class [\w] and whitespace follow Python on code points below
      128; any other character is a caseless symbol that is neither a word
      character nor a space.
    - [datetime] is an integer number of microseconds ([Z]); a
      [timedelta(minutes=m)] is [m * 60000000].
    - Python objects that are shared and mutated ([SessionData]) live in an
      explicit heap; a variable holding such an object holds its address.
    - Exceptions are values of [Exn]; a raising computation keeps the side
      effects it made before raising. *)

From Stdlib Require Import ZArith Ascii String List Bool Lia.
From stdpp Require Import gmap strings list fin_maps.

(* ===================================================================== *)
(** * Part I: the model                                                   *)
(* ===================================================================== *)

(** ** Python string primitives *)

Module PyStr.

Definition code (c : ascii) : nat := nat_of_ascii c.

Definition in_range (lo hi : nat) (c : ascii) : bool :=
  (lo <=? code c)%nat && (code c <=? hi)%nat.

Definition is_upper (c : ascii) : bool := in_range 65 90 c.
Definition is_lower (c : ascii) : bool := in_range 97 122 c.
Definition is_digit (c : ascii) : bool := in_range 48 57 c.

(** [\w] of the [re] module on ASCII text. *)
Definition is_word (c : ascii) : bool :=
  is_upper c || is_lower c || is_digit c || (code c =? 95)%nat.

(** [str.isspace] on ASCII text: TAB..CR, FS..US and the blank. *)
Definition is_space (c : ascii) : bool :=
  in_range 9 13 c || in_range 28 32 c.

Definition lower_char (c : ascii) : ascii :=
  if is_upper c then ascii_of_nat (code c + 32) else c.

(** [s.lower()] *)
Fixpoint lower (s : string) : string :=
  match s with
  | EmptyString => EmptyString
  | String c s' => String (lower_char c) (lower s')
  end.

(** [s.startswith(p)] *)
Fixpoint startswith (p s : string) : bool :=
  match p, s with
  | EmptyString, _ => true
  | String _ _, EmptyString => false
  | String a p', String b s' => Ascii.eqb a b && startswith p' s'
  end.

(** [sub in s] *)
Fixpoint contains (sub s : string) : bool :=
  startswith sub s ||
  match s with
  | EmptyString => false
  | String _ s' => contains sub s'
  end.

(** [s.count(c)] for a one-character [c]. *)
Fixpoint count (c : ascii) (s : string) : nat :=
  match s with
  | EmptyString => 0
  | String d s' => (if Ascii.eqb d c then 1 else 0) + count c s'
  end.

(** [s.replace(c, new)] for a one-character [c]. *)
Fixpoint replace (c : ascii) (new : string) (s : string) : string :=
  match s with
  | EmptyString => EmptyString
  | String d s' =>
      if Ascii.eqb d c then new +:+ replace c new s'
      else String d (replace c new s')
  end.

(** [sep.join(l)] *)
Fixpoint join (sep : string) (l : list string) : string :=
  match l with
  | [] => EmptyString
  | [x] => x
  | x :: l' => x +:+ sep +:+ join sep l'
  end.

(** [len(s.split())]: the number of maximal runs of non-space characters.
    [inside] tells whether the previous character was part of a run. *)
Fixpoint count_fields (inside : bool) (s : string) : nat :=
  match s with
  | EmptyString => 0
  | String c s' =>
      if is_space c then count_fields false s'
      else (if inside then 0 else 1) + count_fields true s'
  end.

Definition split_len (s : string) : nat := count_fields false s.

(** *** [re.compile(r'\b' + w + r'\b', re.IGNORECASE).sub(repl, s)]

    for a pattern [w] made of word characters.  The scanner walks the
    subject from left to right.  At a position that is not in the middle
    of a match, preceded by no word character, where [w] matches up to
    case and is followed by no word character, it emits [repl] and jumps
    over the match; elsewhere it copies one character. *)

Definition ci_char_eqb (a b : ascii) : bool :=
  Ascii.eqb (lower_char a) (lower_char b).

(** The rest of [s] after a prefix equal to [w] up to case. *)
Fixpoint ci_strip (w s : string) : option string :=
  match w, s with
  | EmptyString, _ => Some s
  | String _ _, EmptyString => None
  | String a w', String b s' =>
      if ci_char_eqb a b then ci_strip w' s' else None
  end.

(** No word character at the head: where [\b] succeeds after a word. *)
Definition at_boundary (s : string) : bool :=
  match s with
  | EmptyString => true
  | String c _ => negb (is_word c)
  end.

Definition match_here (w s : string) : bool :=
  match ci_strip w s with
  | Some rest => at_boundary rest
  | None => false
  end.

(** [prev]: the previous character of the subject is a word character;
    [skip]: characters of the current match still to jump over. *)
Fixpoint sub_scan (w repl : string) (prev : bool) (skip : nat) (s : string)
  : string :=
  match s with
  | EmptyString => EmptyString
  | String c s' =>
      match skip with
      | S k => sub_scan w repl true k s'
      | O =>
          if negb prev && match_here w s
          then repl +:+ sub_scan w repl true (String.length w - 1) s'
          else String c (sub_scan w repl (is_word c) 0 s')
      end
  end.

Definition sub_word (w repl s : string) : string :=
  sub_scan w repl false 0 s.

(** *** The same substitution read word by word

    A subject is a sequence of maximal runs of word characters separated
    by other characters.  [map_words f acc s] rewrites every run of [s]
    with [f] and copies the separators; [acc] is the run read so far. *)






End PyStr.

(** ** [app/core/safety_filter.py] *)

(** The abstract base class [ContentFilter]: an object with the three
    methods.  [validate] returns the pair [(is_valid, error_message)]. *)
Module ContentFilter.
Record t : Type := {
  apply : string → string;
  get_system_prompt : string;
  validate : string → bool * option string
}.
End ContentFilter.

Module MoralValuesFilter.

Definition negative_keywords : list string :=
  [ "violence"; "fight"; "hurt"; "kill"; "death"; "scary";
    "nightmare"; "evil"; "hate"; "steal"; "lie"; "cheat";
    "bully"; "mean"; "cruel"; "weapon"; "blood" ].

Definition positive_themes : list string :=
  [ "kindness"; "friendship"; "helping"; "sharing"; "honesty";
    "courage"; "respect"; "love"; "teamwork"; "gratitude";
    "forgiveness"; "patience"; "responsibility" ].

(** The dict [replacements], in insertion order. *)
Definition replacements : list (string * string) :=
  [ ("fight", "disagreement");
    ("hurt", "upset");
    ("scary", "surprising");
    ("evil", "unkind");
    ("hate", "dislike");
    ("steal", "borrow without asking");
    ("lie", "not tell the truth");
    ("mean", "unkind");
    ("cruel", "not nice") ].

Definition apply (content : string) : string :=
  fold_left (λ filtered_content wr, PyStr.sub_word wr.1 wr.2 filtered_content)
            replacements content.

Definition get_system_prompt : string :=
"You are a children's storyteller who creates stories that promote positive moral values.
        
Your stories should:
- Emphasize kindness, friendship, helping others, and sharing
- Show characters learning from mistakes and growing
- Promote honesty, respect, and responsibility
- Include positive role models and good behavior
- Teach valuable life lessons in a gentle way

Avoid:
- Violence, fighting, or aggressive behavior
- Scary or frightening content
- Negative behaviors being rewarded
- Mean-spirited characters or bullying
- Any content that might upset or frighten young children

Always ensure the story has a positive message and happy, uplifting tone.".

Definition validate (content : string) : bool * option string :=
  let content_lower := PyStr.lower content in
  let found_negative :=
    List.filter (λ word, PyStr.contains word content_lower) negative_keywords in
  if negb (Nat.eqb (length found_negative) 0) then
    (false, Some ("Content contains inappropriate words: "
                    +:+ PyStr.join ", " found_negative))
  else
    let found_positive :=
      List.filter (λ theme, PyStr.contains theme content_lower) positive_themes in
    if Nat.eqb (length found_positive) 0 then
      (false, Some "Story should include positive themes like kindness, friendship, or helping others")
    else (true, None).

Definition new : ContentFilter.t :=
  {| ContentFilter.apply := apply;
     ContentFilter.get_system_prompt := get_system_prompt;
     ContentFilter.validate := validate |}.

End MoralValuesFilter.

Module EducationalFilter.

Definition educational_elements : list string :=
  [ "learn"; "discover"; "explore"; "understand"; "practice";
    "count"; "spell"; "science"; "nature"; "history";
    "geography"; "math"; "reading"; "writing"; "curiosity";
    "question"; "answer"; "think"; "solve"; "create" ].

Definition educational_topics : list string :=
  [ "numbers"; "letters"; "colors"; "shapes"; "animals";
    "plants"; "weather"; "seasons"; "countries"; "cultures";
    "space"; "ocean"; "environment"; "recycling"; "health" ].

Definition apply (content : string) : string := content.

Definition get_system_prompt : string :=
"You are an educational storyteller for children who creates engaging stories that teach valuable lessons.

Your stories should:
- Include educational elements (numbers, letters, colors, shapes, science facts)
- Encourage curiosity and asking questions
- Teach about the world (nature, animals, different cultures, etc.)
- Include problem-solving or critical thinking elements
- Make learning fun and exciting
- Use age-appropriate vocabulary while introducing new words

Incorporate one or more educational topics such as:
- Basic math concepts (counting, simple addition)
- Letters and phonics
- Science and nature facts
- Geography and cultures
- Environmental awareness
- Healthy habits

Always make the educational content natural to the story, not forced or preachy.".

Definition validate (content : string) : bool * option string :=
  let content_lower := PyStr.lower content in
  let found_elements :=
    List.filter (λ elem, PyStr.contains elem content_lower) educational_elements in
  let found_topics :=
    List.filter (λ topic, PyStr.contains topic content_lower) educational_topics in
  if Nat.eqb (length found_elements) 0 && Nat.eqb (length found_topics) 0 then
    (false, Some "Story should include educational elements or teach something valuable")
  else (true, None).

Definition new : ContentFilter.t :=
  {| ContentFilter.apply := apply;
     ContentFilter.get_system_prompt := get_system_prompt;
     ContentFilter.validate := validate |}.

End EducationalFilter.

Module FunOnlyFilter.

Definition fun_elements : list string :=
  [ "laugh"; "giggle"; "funny"; "silly"; "play"; "game";
    "adventure"; "magic"; "surprise"; "dance"; "sing";
    "joke"; "tickle"; "bounce"; "jump"; "celebrate";
    "party"; "fun"; "exciting"; "amazing"; "wonderful" ].

Definition serious_topics : list string :=
  [ "lesson"; "moral"; "learn"; "study"; "homework";
    "serious"; "important"; "consequence"; "responsibility" ].

Definition apply (content : string) : string :=
  PyStr.replace "!" "!!!" content.

Definition get_system_prompt : string :=
"You are a fun and playful storyteller who creates purely entertaining stories for children!

Your stories should be:
- Super fun, silly, and full of laughter
- Packed with adventures, games, and surprises
- Full of magical and imaginative elements
- Light-hearted with funny characters and situations
- Exciting with lots of action and movement
- Celebratory and joyful

Include elements like:
- Silly jokes and wordplay
- Funny sound effects (Whoosh! Boing! Splat!)
- Magical creatures and fantastical settings
- Games, parties, and celebrations
- Singing, dancing, and playing
- Unexpected twists and surprises

Keep it light and fun - no serious lessons or morals needed! Just pure entertainment and joy!
Use exclamation marks and enthusiastic language! Make every sentence bubble with excitement!".

Definition validate (content : string) : bool * option string :=
  let content_lower := PyStr.lower content in
  let found_fun :=
    List.filter (λ elem, PyStr.contains elem content_lower) fun_elements in
  if (length found_fun <? 2)%nat then
    (false, Some "Story needs more fun, silly, or exciting elements!")
  else
    let found_serious :=
      List.filter (λ topic, PyStr.contains topic content_lower) serious_topics in
    if (2 <? length found_serious)%nat then
      (false, Some "Story is too serious - make it more fun and playful!")
    else if (PyStr.count "!" content <? 3)%nat then
      (false, Some "Story needs more excitement and energy!")
    else (true, None).

Definition new : ContentFilter.t :=
  {| ContentFilter.apply := apply;
     ContentFilter.get_system_prompt := get_system_prompt;
     ContentFilter.validate := validate |}.

End FunOnlyFilter.

Module SafetyFilterManager.

(** [filters] is the dict built by [__init__]; [enabled] is
    [settings.safety_filters_enabled] read at construction. *)
Record t : Type := {
  filters : gmap string ContentFilter.t;
  enabled : bool
}.

Definition new (safety_filters_enabled : bool) : t :=
  {| filters :=
       <["fun_only" := FunOnlyFilter.new]>
         (<["educational" := EducationalFilter.new]>
            (<["moral_values" := MoralValuesFilter.new]> ∅));
     enabled := safety_filters_enabled |}.

Definition get_filter (self : t) (filter_type : string) : option ContentFilter.t :=
  filters self !! filter_type.

Definition apply_filter (self : t) (content filter_type : string) : string :=
  if negb (enabled self) then content
  else match get_filter self filter_type with
       | Some filter_obj => ContentFilter.apply filter_obj content
       | None => content
       end.

Definition validate_content (self : t) (content filter_type : string)
  : bool * option string :=
  if negb (enabled self) then (true, None)
  else match get_filter self filter_type with
       | Some filter_obj => ContentFilter.validate filter_obj content
       | None => (true, None)
       end.

End SafetyFilterManager.

(** ** [app/core/prompt_manager.py], [app/core/llm_client.py], [app/core/config.py] *)

Inductive SessionMode : Type := STORY | TUTOR.

Definition SessionMode_value (m : SessionMode) : string :=
  match m with STORY => "story" | TUTOR => "tutor" end.

Global Instance SessionMode_eq_dec : EqDecision SessionMode.
Proof. solve_decision. Defined.

(** The enum [ContentFilter] of [prompt_manager.py] (the class of the same
    name in [safety_filter.py] is [ContentFilter.t] above).  It derives from
    [str]: a member hashes and compares as its value, so a dict keyed by the
    values is indexed alike by a member and by its [.value]. *)
Inductive ContentFilterEnum : Type := MORAL_VALUES | EDUCATIONAL | FUN_ONLY.

Definition ContentFilter_value (f : ContentFilterEnum) : string :=
  match f with
  | MORAL_VALUES => "moral_values"
  | EDUCATIONAL => "educational"
  | FUN_ONLY => "fun_only"
  end.

Record Message : Type := { role : string; content : string }.

Inductive SessionBackend : Type := Memory | Redis.

(** The fields of [Settings] that the core reads. *)
Record Settings : Type := {
  session_backend : SessionBackend;
  session_timeout_minutes : Z;
  safety_filters_enabled : bool;
  default_content_filter : string;
  max_story_length : Z
}.

(** Values held in the [Dict[str, Any]] of a session's [config]: the strings
    and integers that the service code and the request models put there. *)
Inductive PyVal : Type :=
  | VStr (s : string)
  | VInt (n : Z).

Inductive Exn : Type :=
  | ValueError (msg : string)
  | KeyError (key : string)
  | TypeError
  | ValidationError
  | GenerationError     (* [llm_client.generate] raised after its own retries *)
  | RedisError          (* the Redis server rejected a command *)
  | Unallocated.        (* an address outside the heap: never built by the code *)

(** ** [app/core/session_manager.py]: [SessionData] *)

Record SessionData : Type := {
  session_id : string;
  mode : SessionMode;
  created_at : Z;
  last_accessed : Z;
  messages : list Message;
  metadata : gmap string PyVal;
  config : gmap string PyVal
}.

Definition loc : Type := nat.

(** The state the code runs in.
    - [now]: the reading of [datetime.utcnow()] and of the Redis clock;
    - [heap]: the [SessionData] objects, by address;
    - [mem_sessions]: the dict [InMemorySessionManager.sessions];
    - [redis_keys]: the keys of the Redis server, each with its value and
      the instant at which it expires;
    - [uuid_drawn]: how many identifiers [uuid.uuid4()] has produced;
    - [llm_calls]: the message lists passed to [llm_client.generate] so far. *)
Record World : Type := {
  now : Z;
  heap : list SessionData;
  mem_sessions : gmap string loc;
  redis_keys : gmap string (SessionData * Z);
  uuid_drawn : nat;
  llm_calls : list (list Message)
}.

(** The collaborators outside the core.
    - [uuid4 n]: the [n]-th identifier drawn;
    - [llm_generate n msgs]: the outcome of the [n]-th call of
      [llm_client.generate], made on [msgs]; [llm_elapsed n]: its duration;
    - [load_prompt m f]: what [PromptManager._load_prompt_from_file] yields
      for the prompt file of mode [m] and filter [f]. *)
Record Env : Type := {
  settings : Settings;
  uuid4 : nat → string;
  llm_generate : nat → list Message → Exn + string;
  llm_elapsed : nat → Z;
  load_prompt : SessionMode → ContentFilterEnum → string
}.

(** *** The monad of stateful, raising computations *)

Definition M (A : Type) : Type := World → (Exn + A) * World.

Global Instance M_ret : MRet M := λ A a w, (inr a, w).

Global Instance M_bind : MBind M := λ A B f m w,
  match m w with
  | (inl e, w') => (inl e, w')
  | (inr a, w') => f a w'
  end.

Definition raise {A : Type} (e : Exn) : M A := λ w, (inl e, w).
Definition get_world : M World := λ w, (inr w, w).
Definition put_world (w : World) : M unit := λ _, (inr tt, w).

Definition utcnow : M Z := λ w, (inr (now w), w).

Definition set_now (t : Z) (w : World) : World :=
  {| now := t; heap := heap w; mem_sessions := mem_sessions w;
     redis_keys := redis_keys w; uuid_drawn := uuid_drawn w;
     llm_calls := llm_calls w |}.

Definition set_heap (h : list SessionData) (w : World) : World :=
  {| now := now w; heap := h; mem_sessions := mem_sessions w;
     redis_keys := redis_keys w; uuid_drawn := uuid_drawn w;
     llm_calls := llm_calls w |}.

Definition set_mem_sessions (m : gmap string loc) (w : World) : World :=
  {| now := now w; heap := heap w; mem_sessions := m;
     redis_keys := redis_keys w; uuid_drawn := uuid_drawn w;
     llm_calls := llm_calls w |}.

Definition set_redis_keys (r : gmap string (SessionData * Z)) (w : World) : World :=
  {| now := now w; heap := heap w; mem_sessions := mem_sessions w;
     redis_keys := r; uuid_drawn := uuid_drawn w;
     llm_calls := llm_calls w |}.

(** [str(uuid.uuid4())] *)
Definition draw_uuid (env : Env) : M string := λ w,
  (inr (uuid4 env (uuid_drawn w)),
   {| now := now w; heap := heap w; mem_sessions := mem_sessions w;
      redis_keys := redis_keys w; uuid_drawn := S (uuid_drawn w);
      llm_calls := llm_calls w |}).

(** [await self.llm_client.generate(messages)]: the call is logged, time
    passes, and the call yields a text or raises. *)
Definition generate (env : Env) (msgs : list Message) : M string := λ w,
  let n := length (llm_calls w) in
  let w' := {| now := (now w + llm_elapsed env n)%Z; heap := heap w;
               mem_sessions := mem_sessions w; redis_keys := redis_keys w;
               uuid_drawn := uuid_drawn w;
               llm_calls := llm_calls w ++ [msgs] |} in
  match llm_generate env n msgs with
  | inl e => (inl e, w')
  | inr text => (inr text, w')
  end.

(** *** Objects *)

Definition alloc (s : SessionData) : M loc := λ w,
  (inr (length (heap w)), set_heap (heap w ++ [s]) w).

Definition deref (l : loc) : M SessionData := λ w,
  match heap w !! l with
  | Some s => (inr s, w)
  | None => (inl Unallocated, w)
  end.

Definition assign (l : loc) (s : SessionData) : M unit := λ w,
  (inr tt, set_heap (<[l := s]> (heap w)) w).

Definition minutes (m : Z) : Z := (m * 60000000)%Z.

Module SessionData_.

(** [SessionData(session_id, mode)]: [created_at] defaults to
    [datetime.utcnow()]. *)
Definition init (env : Env) (session_id : string) (mode : SessionMode) (t : Z)
  : SessionData :=
  {| session_id := session_id;
     mode := mode;
     created_at := t;
     last_accessed := t;
     messages := [];
     metadata := ∅;
     config :=
       <["max_story_length" := VInt (max_story_length (settings env))]>
         (<["content_filter" := VStr (default_content_filter (settings env))]> ∅) |}.

Definition with_last_accessed (t : Z) (s : SessionData) : SessionData :=
  {| session_id := session_id s; mode := mode s; created_at := created_at s;
     last_accessed := t; messages := messages s; metadata := metadata s;
     config := config s |}.

Definition with_messages (ms : list Message) (s : SessionData) : SessionData :=
  {| session_id := session_id s; mode := mode s; created_at := created_at s;
     last_accessed := last_accessed s; messages := ms; metadata := metadata s;
     config := config s |}.

Definition with_config (c : gmap string PyVal) (s : SessionData) : SessionData :=
  {| session_id := session_id s; mode := mode s; created_at := created_at s;
     last_accessed := last_accessed s; messages := messages s;
     metadata := metadata s; config := c |}.

(** [self.is_expired(timeout_minutes)], [t] being [datetime.utcnow()]. *)
Definition is_expired (s : SessionData) (timeout_minutes : Z) (t : Z) : bool :=
  let expiry_time := (last_accessed s + minutes timeout_minutes)%Z in
  (expiry_time <? t)%Z.

(** [self.messages.append(m)]: the list object is mutated in place, as it
    also is through the alias returned by [get_messages]. *)
Definition messages_append (self : loc) (m : Message) : M unit :=
  s ← deref self;
  assign self (with_messages (messages s ++ [m]) s).

Definition add_message (self : loc) (role content : string) : M unit :=
  messages_append self {| role := role; content := content |};;
  t ← utcnow;
  s ← deref self;
  assign self (with_last_accessed t s).

(** [self.config[key] = value] *)
Definition config_set (self : loc) (key : string) (v : PyVal) : M unit :=
  s ← deref self;
  assign self (with_config (<[key := v]> (config s)) s).

(** [self.config.update(d)]: the entries of [d] win. *)
Definition config_update (self : loc) (d : gmap string PyVal) : M unit :=
  s ← deref self;
  assign self (with_config (d ∪ config s) s).

End SessionData_.

(** ** [app/core/session_manager.py]: the two stores *)

Module InMemorySessionManager.

Definition timeout_minutes (env : Env) : Z :=
  session_timeout_minutes (settings env).

Definition create_session (env : Env) (mode : SessionMode) : M string :=
  session_id ← draw_uuid env;
  t ← utcnow;
  l ← alloc (SessionData_.init env session_id mode t);
  w ← get_world;
  put_world (set_mem_sessions (<[session_id := l]> (mem_sessions w)) w);;
  mret session_id.

Definition delete_session (session_id : string) : M bool := λ w,
  match mem_sessions w !! session_id with
  | Some _ => (inr true, set_mem_sessions (delete session_id (mem_sessions w)) w)
  | None => (inr false, w)
  end.

Definition get_session (env : Env) (session_id : string) : M (option loc) :=
  w ← get_world;
  match mem_sessions w !! session_id with
  | Some session =>
      s ← deref session;
      t ← utcnow;
      if SessionData_.is_expired s (timeout_minutes env) t then
        delete_session session_id;;
        mret None
      else
        t' ← utcnow;
        assign session (SessionData_.with_last_accessed t' s);;
        mret (Some session)
  | None => mret None
  end.

Definition update_session (session_data : loc) : M bool :=
  s ← deref session_data;
  w ← get_world;
  match mem_sessions w !! session_id s with
  | Some _ =>
      put_world (set_mem_sessions
                   (<[session_id s := session_data]> (mem_sessions w)) w);;
      mret true
  | None => mret false
  end.

(** The comprehension [[sid for sid, session in self.sessions.items()
    if session.is_expired(self.timeout_minutes)]]. *)
Fixpoint expired_ids (env : Env) (items : list (string * loc)) : M (list string) :=
  match items with
  | [] => mret []
  | (sid, session) :: items' =>
      s ← deref session;
      t ← utcnow;
      ids ← expired_ids env items';
      mret (if SessionData_.is_expired s (timeout_minutes env) t
            then sid :: ids else ids)
  end.

Fixpoint delete_all (ids : list string) : M unit :=
  match ids with
  | [] => mret tt
  | session_id :: ids' => delete_session session_id;; delete_all ids'
  end.

Definition cleanup_expired_sessions (env : Env) : M nat :=
  w ← get_world;
  ids ← expired_ids env (map_to_list (mem_sessions w));
  delete_all ids;;
  mret (length ids).

End InMemorySessionManager.

(** The commands of the Redis server that the store issues.  A key set with a
    time to live [ttl] at instant [t] is visible up to [t + ttl] and gone
    afterwards; [SETEX] rejects a [ttl] that is not positive.  The value kept
    under a key is the session record itself: [json.dumps(s.to_dict())] and
    [SessionData.from_dict(json.loads(data))] are inverse to each other on
    the records of this model. *)
Module RedisServer.

Definition visible (w : World) (key : string) : option SessionData :=
  match redis_keys w !! key with
  | Some (v, deadline) => if (now w <=? deadline)%Z then Some v else None
  | None => None
  end.

Definition get (key : string) : M (option SessionData) := λ w,
  (inr (visible w key), w).

Definition exists_ (key : string) : M bool := λ w,
  (inr (bool_decide (is_Some (visible w key))), w).

Definition setex (key : string) (ttl : Z) (v : SessionData) : M unit := λ w,
  if (ttl <=? 0)%Z then (inl RedisError, w)
  else (inr tt, set_redis_keys (<[key := (v, (now w + ttl)%Z)]> (redis_keys w)) w).

Definition delete (key : string) : M nat := λ w,
  match visible w key with
  | Some _ => (inr 1, set_redis_keys (base.delete key (redis_keys w)) w)
  | None => (inr 0, w)
  end.

End RedisServer.

Module RedisSessionManager.

Definition timeout_minutes (env : Env) : Z :=
  session_timeout_minutes (settings env).

Definition _get_key (session_id : string) : string :=
  "storytelling:session:" +:+ session_id.

Definition create_session (env : Env) (mode : SessionMode) : M string :=
  session_id ← draw_uuid env;
  t ← utcnow;
  let session := SessionData_.init env session_id mode t in
  let key := _get_key session_id in
  RedisServer.setex key (minutes (timeout_minutes env)) session;;
  mret session_id.

Definition update_session (env : Env) (session_data : loc) : M bool :=
  s ← deref session_data;
  let key := _get_key (session_id s) in
  present ← RedisServer.exists_ key;
  if negb present then mret false
  else
    RedisServer.setex key (minutes (timeout_minutes env)) s;;
    mret true.

Definition get_session (env : Env) (session_id : string) : M (option loc) :=
  let key := _get_key session_id in
  data ← RedisServer.get key;
  match data with
  | None => mret None
  | Some d =>
      session ← alloc d;
      t ← utcnow;
      s ← deref session;
      assign session (SessionData_.with_last_accessed t s);;
      update_session env session;;
      mret (Some session)
  end.

Definition delete_session (session_id : string) : M bool :=
  let key := _get_key session_id in
  result ← RedisServer.delete key;
  mret (negb (Nat.eqb result 0)).

Definition cleanup_expired_sessions : M nat := mret 0.

End RedisSessionManager.

(** [get_session_manager()]: the store selected by
    [settings.session_backend]. *)
Module SessionManager.

Definition create_session (env : Env) (mode : SessionMode) : M string :=
  match session_backend (settings env) with
  | Memory => InMemorySessionManager.create_session env mode
  | Redis => RedisSessionManager.create_session env mode
  end.

Definition get_session (env : Env) (session_id : string) : M (option loc) :=
  match session_backend (settings env) with
  | Memory => InMemorySessionManager.get_session env session_id
  | Redis => RedisSessionManager.get_session env session_id
  end.

Definition update_session (env : Env) (session_data : loc) : M bool :=
  match session_backend (settings env) with
  | Memory => InMemorySessionManager.update_session session_data
  | Redis => RedisSessionManager.update_session env session_data
  end.

Definition delete_session (env : Env) (session_id : string) : M bool :=
  match session_backend (settings env) with
  | Memory => InMemorySessionManager.delete_session session_id
  | Redis => RedisSessionManager.delete_session session_id
  end.

Definition cleanup_expired_sessions (env : Env) : M nat :=
  match session_backend (settings env) with
  | Memory => InMemorySessionManager.cleanup_expired_sessions env
  | Redis => RedisSessionManager.cleanup_expired_sessions
  end.

End SessionManager.

(** What a caller finds under the identifier [sid]: the record [s], filed
    under its own identifier and still alive. *)
Definition stored (env : Env) (w : World) (sid : string) (s : SessionData)
  : Prop :=
  session_id s = sid ∧
  match session_backend (settings env) with
  | Memory =>
      ∃ l : loc,
        mem_sessions w !! sid = Some l ∧ heap w !! l = Some s ∧
        SessionData_.is_expired s (session_timeout_minutes (settings env)) (now w)
          = false
  | Redis =>
      RedisServer.visible w (RedisSessionManager._get_key sid) = Some s ∧
      (0 < session_timeout_minutes (settings env))%Z
  end.

(** ** Shared pieces of the services *)

Definition LF : string := String "010"%char EmptyString.

(** Truth value of an [Optional[str]]. *)
Definition truthy (o : option string) : bool :=
  match o with
  | Some (String _ _) => true
  | _ => false
  end.

(** [x or default] on an [Optional[str]]. *)
Definition or_default (o : option string) (default : string) : string :=
  match o with
  | Some (String c s) => String c s
  | _ => default
  end.

(** An [Optional[str]] inside an f-string. *)
Definition fmt_optional (o : option string) : string :=
  match o with
  | Some s => s
  | None => "None"
  end.

(** [session.config[key]] *)
Definition config_get (session : loc) (key : string) : M PyVal :=
  s ← deref session;
  match config s !! key with
  | Some v => mret v
  | None => raise (KeyError key)
  end.

(** [ContentFilter(v)]: the member whose value is [v]. *)
Definition ContentFilter_of (v : PyVal) : M ContentFilterEnum :=
  match v with
  | VStr s =>
      if String.eqb s "moral_values" then mret MORAL_VALUES
      else if String.eqb s "educational" then mret EDUCATIONAL
      else if String.eqb s "fun_only" then mret FUN_ONLY
      else raise (ValueError ("'" +:+ s +:+ "' is not a valid ContentFilter"))
  | VInt _ => raise (ValueError "not a valid ContentFilter")
  end.

(** A [str] field of a response model receives [v]. *)
Definition as_str (v : PyVal) : M string :=
  match v with
  | VStr s => mret s
  | VInt _ => raise ValidationError
  end.

(** [total_words > limit] for the config value [limit]. *)
Definition gt_config (total_words : nat) (limit : PyVal) : M bool :=
  match limit with
  | VInt n => mret (n <? Z.of_nat total_words)%Z
  | VStr _ => raise TypeError
  end.

Definition get_messages (session : loc) : M (list Message) :=
  s ← deref session;
  mret (messages s).

Module PromptManager.

Definition age_instructions : string :=
"

IMPORTANT AGE-APPROPRIATE GUIDELINES:
- Use simple, clear language appropriate for children
- Keep responses positive and encouraging
- Avoid complex jargon or overly technical terms
- Be patient and supportive with questions
- Make learning fun and engaging
- Ensure all content is safe and appropriate for young minds".

Definition _enhance_prompt_with_age_instructions (base_prompt : string) : string :=
  base_prompt +:+ age_instructions.

Definition get_system_prompt (env : Env) (mode : SessionMode)
    (content_filter : ContentFilterEnum) : string :=
  _enhance_prompt_with_age_instructions (load_prompt env mode content_filter).

End PromptManager.

(** [get_safety_filter_manager()] *)
Definition safety_manager (env : Env) : SafetyFilterManager.t :=
  SafetyFilterManager.new (safety_filters_enabled (settings env)).

(** ** [app/services/story_service.py] *)

Module StoryStartRequest.
Record t : Type := {
  prompt : string;
  character_name : option string;
  age_group : option string;
  story_length : option string;
  content_filter : option string
}.
End StoryStartRequest.

Module StoryContinueRequest.
Record t : Type := {
  session_id : string;
  user_input : string;
  choice : option string
}.
End StoryContinueRequest.

Module StoryResponse.
Record t : Type := {
  session_id : string;
  story_content : string;
  choices : option (list string);
  is_complete : bool;
  word_count : nat;
  content_filter_applied : string;
  message_count : nat
}.
End StoryResponse.

Module StoryService.

Definition _create_initial_prompt (request : StoryStartRequest.t) : string :=
  let prompt_parts := [ "Create a story about: " +:+ StoryStartRequest.prompt request ] in
  let prompt_parts :=
    if truthy (StoryStartRequest.character_name request) then
      prompt_parts ++
        [ "The main character's name is "
            +:+ fmt_optional (StoryStartRequest.character_name request) +:+ "." ]
    else prompt_parts in
  PyStr.join " " prompt_parts.

Definition age_prompts : list (string * string) :=
  [ ("3-5",
"Target age group: 3-5 years old.
Use very simple language, short sentences, and basic vocabulary.
Focus on colors, shapes, and simple concepts.
Include repetition and rhyming when possible.");
    ("6-8",
"Target age group: 6-8 years old.
Use clear, simple language with some new vocabulary words.
Include more complex storylines but keep them easy to follow.
Add descriptive details to spark imagination.");
    ("9-12",
"Target age group: 9-12 years old.
Use richer vocabulary and more complex sentence structures.
Include deeper themes and character development.
Create more sophisticated plots with subplots if appropriate.") ].

(** [d.get(key, default)] on a dict given by its items. *)
Definition dict_get (d : list (string * string)) (key default : string) : string :=
  match List.find (λ kv, String.eqb kv.1 key) d with
  | Some kv => kv.2
  | None => default
  end.

Definition _get_age_appropriate_prompt (age_group : option string) : string :=
  dict_get age_prompts (or_default age_group "6-8") (dict_get age_prompts "6-8" "").

Definition length_prompts : list (string * string) :=
  [ ("short", "Keep the story brief (around 200-300 words per response).");
    ("medium", "Create a medium-length story (around 400-500 words per response).");
    ("long", "Create a longer, more detailed story (around 600-800 words per response).") ].

Definition _get_length_prompt (story_length : option string) : string :=
  dict_get length_prompts (or_default story_length "medium")
           (dict_get length_prompts "medium" "").

Definition ending_indicators : list string :=
  [ "the end"; "happily ever after"; "and that's how";
    "from that day on"; "and they all lived"; "the moral of the story";
    "and so it was"; "and that was that"; "fin"; "the end." ].

Definition _check_story_completion (content : string) : bool :=
  let content_lower := PyStr.lower content in
  existsb (λ indicator, PyStr.contains indicator content_lower) ending_indicators.

(** [sum(len(msg.content.split()) for msg in messages if msg.role == "assistant")] *)
Definition assistant_words (msgs : list Message) : nat :=
  list_sum (map (λ msg, PyStr.split_len (content msg))
                (List.filter (λ msg, String.eqb (role msg) "assistant") msgs)).

Definition start_story (env : Env) (request : StoryStartRequest.t)
  : M StoryResponse.t :=
  session_id ← SessionManager.create_session env STORY;
  found ← SessionManager.get_session env session_id;
  match found with
  | None => raise (ValueError "Failed to create session")
  | Some session =>
      (if truthy (StoryStartRequest.content_filter request) then
         SessionData_.config_set session "content_filter"
           (VStr (fmt_optional (StoryStartRequest.content_filter request)))
       else mret tt);;
      v ← config_get session "content_filter";
      filter_type ← ContentFilter_of v;
      let system_prompt :=
        PromptManager.get_system_prompt env STORY filter_type in
      let age_prompt :=
        _get_age_appropriate_prompt (StoryStartRequest.age_group request) in
      let system_prompt := system_prompt +:+ LF +:+ LF +:+ age_prompt in
      let length_prompt :=
        _get_length_prompt (StoryStartRequest.story_length request) in
      let system_prompt := system_prompt +:+ LF +:+ LF +:+ length_prompt in
      SessionData_.add_message session "system" system_prompt;;
      let user_prompt := _create_initial_prompt request in
      SessionData_.add_message session "user" user_prompt;;
      messages ← get_messages session;
      llm_response ← generate env messages;
      let filtered_content :=
        SafetyFilterManager.apply_filter (safety_manager env) llm_response
          (ContentFilter_value filter_type) in
      let '(is_valid, error_msg) :=
        SafetyFilterManager.validate_content (safety_manager env) filtered_content
          (ContentFilter_value filter_type) in
      filtered_content ←
        (if negb is_valid then
           SessionData_.messages_append session
             {| role := "system";
                content := "Please ensure the story follows these guidelines: "
                             +:+ fmt_optional error_msg |};;
           messages ← get_messages session;
           llm_response ← generate env messages;
           mret (SafetyFilterManager.apply_filter (safety_manager env) llm_response
                   (ContentFilter_value filter_type))
         else mret filtered_content);
      SessionData_.add_message session "assistant" filtered_content;;
      SessionManager.update_session env session;;
      let word_count := PyStr.split_len filtered_content in
      messages ← get_messages session;
      mret {| StoryResponse.session_id := session_id;
              StoryResponse.story_content := filtered_content;
              StoryResponse.choices := None;
              StoryResponse.is_complete := _check_story_completion filtered_content;
              StoryResponse.word_count := word_count;
              StoryResponse.content_filter_applied := ContentFilter_value filter_type;
              StoryResponse.message_count := length messages |}
  end.

Definition continue_story (env : Env) (request : StoryContinueRequest.t)
  : M StoryResponse.t :=
  found ← SessionManager.get_session env (StoryContinueRequest.session_id request);
  match found with
  | None => raise (ValueError "Session not found or expired")
  | Some session =>
      SessionData_.add_message session "user" (StoryContinueRequest.user_input request);;
      messages ← get_messages session;
      let total_words := assistant_words messages in
      limit ← config_get session "max_story_length";
      too_long ← gt_config total_words limit;
      (if (too_long : bool) then
         let wrap_up_prompt :=
           "Please bring the story to a satisfying conclusion in the next response." in
         SessionData_.add_message session "system" wrap_up_prompt
       else mret tt);;
      messages ← get_messages session;
      llm_response ← generate env messages;
      v ← config_get session "content_filter";
      filter_type ← ContentFilter_of v;
      let filtered_content :=
        SafetyFilterManager.apply_filter (safety_manager env) llm_response
          (ContentFilter_value filter_type) in
      let '(is_valid, error_msg) :=
        SafetyFilterManager.validate_content (safety_manager env) filtered_content
          (ContentFilter_value filter_type) in
      filtered_content ←
        (if negb is_valid then
           SessionData_.messages_append session
             {| role := "system";
                content := "Please ensure the continuation follows these guidelines: "
                             +:+ fmt_optional error_msg |};;
           messages ← get_messages session;
           llm_response ← generate env messages;
           mret (SafetyFilterManager.apply_filter (safety_manager env) llm_response
                   (ContentFilter_value filter_type))
         else mret filtered_content);
      SessionData_.add_message session "assistant" filtered_content;;
      SessionManager.update_session env session;;
      let word_count := PyStr.split_len filtered_content in
      is_complete ←
        (if _check_story_completion filtered_content then mret true
         else
           limit ← config_get session "max_story_length";
           gt_config total_words limit);
      messages ← get_messages session;
      mret {| StoryResponse.session_id := StoryContinueRequest.session_id request;
              StoryResponse.story_content := filtered_content;
              StoryResponse.choices := None;
              StoryResponse.is_complete := is_complete;
              StoryResponse.word_count := word_count;
              StoryResponse.content_filter_applied := ContentFilter_value filter_type;
              StoryResponse.message_count := length messages |}
  end.

End StoryService.

(** ** [app/services/tutor_service.py] *)

Module TutorAskRequest.
Record t : Type := {
  session_id : string;
  question : string;
  subject_hint : option string
}.
End TutorAskRequest.

Module TutorResponse.
Record t : Type := {
  session_id : string;
  answer : string;
  subject_detected : option string;
  follow_up_suggestions : option (list string);
  educational_level : string;
  content_filter_applied : string;
  message_count : nat;
  is_appropriate : bool
}.
End TutorResponse.

Module ConfigRequest.
Record t : Type := {
  session_id : string;
  content_filter : option string;
  age_group : option string;
  additional_settings : option (gmap string PyVal)
}.
End ConfigRequest.

Module ConfigResponse.
Record t : Type := {
  session_id : string;
  mode : string;
  config : gmap string PyVal;
  message : string
}.
End ConfigResponse.

Module SessionInfoResponse.
Record t : Type := {
  session_id : string;
  created_at : Z;
  last_accessed : Z;
  message_count : nat;
  config : gmap string PyVal;
  is_expired : bool
}.
End SessionInfoResponse.

Module TutorService.

(** The dict [subject_keywords], in insertion order. *)
Definition subject_keywords : list (string * list string) :=
  [ ("math", [ "number"; "count"; "add"; "subtract"; "multiply"; "divide";
               "plus"; "minus"; "equals"; "math"; "arithmetic"; "geometry";
               "shapes" ]);
    ("science", [ "science"; "experiment"; "nature"; "animal"; "plant";
                  "space"; "earth"; "weather"; "body"; "health"; "chemistry";
                  "physics" ]);
    ("language", [ "word"; "letter"; "read"; "write"; "spell"; "grammar";
                   "sentence"; "story"; "book"; "language"; "alphabet" ]);
    ("social_studies", [ "history"; "geography"; "country"; "culture";
                         "community"; "family"; "friend"; "society"; "world" ]);
    ("art", [ "draw"; "paint"; "color"; "art"; "music"; "dance"; "creative";
              "picture"; "craft" ]);
    ("general", [ "how"; "what"; "why"; "where"; "when"; "explain"; "tell";
                  "help" ]) ].

(** [any(keyword in text for keyword in keywords)] *)
Definition any_keyword (keywords : list string) (text : string) : bool :=
  existsb (λ keyword, PyStr.contains keyword text) keywords.

(** [sum(1 for keyword in keywords if keyword in text)] *)
Definition score (keywords : list string) (text : string) : nat :=
  length (List.filter (λ keyword, PyStr.contains keyword text) keywords).

(** The dict [subject_scores]: the subjects of positive score, in the
    order of [subject_keywords]. *)
Definition subject_scores (question_lower : string) : list (string * nat) :=
  List.filter (λ entry, (0 <? entry.2)%nat)
    (map (λ sk, (sk.1, score sk.2 question_lower)) subject_keywords).

(** [max(d, key=d.get)] continued from the best key seen so far: a later
    key replaces it only with a strictly greater value. *)
Fixpoint max_from (best : string * nat) (rest : list (string * nat)) : string :=
  match rest with
  | [] => best.1
  | entry :: rest' =>
      max_from (if (best.2 <? entry.2)%nat then entry else best) rest'
  end.

Definition _detect_subject (question : string) (subject_hint : option string)
  : string :=
  let question_lower := PyStr.lower question in
  let hinted :=
    if truthy subject_hint then
      let hint_lower := PyStr.lower (fmt_optional subject_hint) in
      List.find (λ sk, any_keyword sk.2 hint_lower) subject_keywords
    else None in
  match hinted with
  | Some sk => sk.1
  | None =>
      match subject_scores question_lower with
      | [] => "general"
      | first :: rest => max_from first rest
      end
  end.

Definition base_suggestions : list (string * list string) :=
  [ ("math", [ "Can you show me another example?";
               "How can I practice this at home?";
               "What comes next in this pattern?" ]);
    ("science", [ "What experiment could we try?";
                  "How does this work in real life?";
                  "What other animals/plants are similar?" ]);
    ("language", [ "Can you help me with spelling?";
                   "What other words are like this?";
                   "How do I use this in a sentence?" ]);
    ("social_studies", [ "What is life like there?";
                         "How is this different from where I live?";
                         "What traditions do they have?" ]);
    ("art", [ "What materials do I need?";
              "Can you show me different techniques?";
              "What artists are famous for this?" ]);
    ("general", [ "Can you explain that differently?";
                  "What's another example?";
                  "How can I learn more about this?" ]) ].

Definition _generate_follow_up_suggestions (question subject : string)
  : list string :=
  let lookup key :=
    match List.find (λ kv, String.eqb kv.1 key) base_suggestions with
    | Some kv => Some kv.2
    | None => None
    end in
  match lookup subject with
  | Some l => l
  | None => default [] (lookup "general")
  end.

Definition _process_question (env : Env) (session : loc) (question : string)
    (subject_hint : option string) : M TutorResponse.t :=
  let detected_subject := _detect_subject question subject_hint in
  SessionData_.add_message session "user" question;;
  messages ← get_messages session;
  llm_response ← generate env messages;
  v ← config_get session "content_filter";
  filter_type ← ContentFilter_of v;
  let filtered_content :=
    SafetyFilterManager.apply_filter (safety_manager env) llm_response
      (ContentFilter_value filter_type) in
  let '(is_valid, error_msg) :=
    SafetyFilterManager.validate_content (safety_manager env) filtered_content
      (ContentFilter_value filter_type) in
  filtered_content ←
    (if negb is_valid then
       let safety_prompt :=
         "Please ensure your answer is appropriate for children and follows these guidelines: "
           +:+ fmt_optional error_msg in
       SessionData_.messages_append session
         {| role := "system"; content := safety_prompt |};;
       messages ← get_messages session;
       llm_response ← generate env messages;
       mret (SafetyFilterManager.apply_filter (safety_manager env) llm_response
               (ContentFilter_value filter_type))
     else mret filtered_content);
  SessionData_.add_message session "assistant" filtered_content;;
  let follow_up_suggestions :=
    _generate_follow_up_suggestions question detected_subject in
  SessionManager.update_session env session;;
  s ← deref session;
  educational_level ← as_str (default (VStr "6-8") (config s !! "age_group"));
  v ← config_get session "content_filter";
  content_filter_applied ← as_str v;
  messages ← get_messages session;
  mret {| TutorResponse.session_id := session_id s;
          TutorResponse.answer := filtered_content;
          TutorResponse.subject_detected := Some detected_subject;
          TutorResponse.follow_up_suggestions := Some follow_up_suggestions;
          TutorResponse.educational_level := educational_level;
          TutorResponse.content_filter_applied := content_filter_applied;
          TutorResponse.message_count := length messages;
          TutorResponse.is_appropriate := is_valid |}.

Definition ask_question (env : Env) (request : TutorAskRequest.t)
  : M TutorResponse.t :=
  found ← SessionManager.get_session env (TutorAskRequest.session_id request);
  match found with
  | None => raise (ValueError "Session not found or expired")
  | Some session =>
      s ← deref session;
      if negb (bool_decide (mode s = TUTOR)) then
        raise (ValueError "Session is not in tutor mode")
      else
        _process_question env session (TutorAskRequest.question request)
          (TutorAskRequest.subject_hint request)
  end.

(** Truth value of an [Optional[Dict]]. *)
Definition nonempty_dict (o : option (gmap string PyVal)) : bool :=
  match o with
  | Some d => negb (bool_decide (d = ∅))
  | None => false
  end.

Definition update_config (env : Env) (request : ConfigRequest.t)
  : M ConfigResponse.t :=
  found ← SessionManager.get_session env (ConfigRequest.session_id request);
  match found with
  | None => raise (ValueError "Session not found or expired")
  | Some session =>
      s ← deref session;
      if negb (bool_decide (mode s = TUTOR)) then
        raise (ValueError "Session is not in tutor mode")
      else
        (if truthy (ConfigRequest.content_filter request) then
           SessionData_.config_set session "content_filter"
             (VStr (fmt_optional (ConfigRequest.content_filter request)))
         else mret tt);;
        (if truthy (ConfigRequest.age_group request) then
           SessionData_.config_set session "age_group"
             (VStr (fmt_optional (ConfigRequest.age_group request)))
         else mret tt);;
        (if nonempty_dict (ConfigRequest.additional_settings request) then
           SessionData_.config_update session
             (default ∅ (ConfigRequest.additional_settings request))
         else mret tt);;
        SessionManager.update_session env session;;
        s ← deref session;
        mret {| ConfigResponse.session_id := ConfigRequest.session_id request;
                ConfigResponse.mode := "tutor";
                ConfigResponse.config := config s;
                ConfigResponse.message :=
                  "Tutor session configuration updated successfully" |}
  end.

Definition get_session_info (env : Env) (session_id : string)
  : M SessionInfoResponse.t :=
  found ← SessionManager.get_session env session_id;
  match found with
  | None => raise (ValueError "Session not found or expired")
  | Some session =>
      s ← deref session;
      if negb (bool_decide (mode s = TUTOR)) then
        raise (ValueError "Session is not in tutor mode")
      else
        mret {| SessionInfoResponse.session_id := session_id;
                SessionInfoResponse.created_at := created_at s;
                SessionInfoResponse.last_accessed := last_accessed s;
                SessionInfoResponse.message_count := length (messages s);
                SessionInfoResponse.config := config s;
                SessionInfoResponse.is_expired := false |}
  end.

End TutorService.

(** ** Vocabulary of the statements *)

(** [w] occurs in [s] as a substring, up to the case of letters. *)
Definition occurs_ci (w s : string) : Prop :=
  ∃ a m b : string, s = a +:+ m +:+ b ∧ PyStr.lower m = PyStr.lower w.

(** [w] occurs in [s] as a substring. *)
Definition occurs (w s : string) : Prop :=
  ∃ a b : string, s = a +:+ w +:+ b.



(** Every identifier of the in-process dict leads to an object. *)
Definition wf (w : World) : Prop :=
  map_Forall (λ _ l, is_Some (heap w !! l)) (mem_sessions w).

(** The object at [l] is a session past its deadline. *)
Definition is_expired_at (env : Env) (w : World) (l : loc) : bool :=
  match heap w !! l with
  | Some s =>
      SessionData_.is_expired s (session_timeout_minutes (settings env)) (now w)
  | None => false
  end.

(** The time since the last access of [s]. *)
Definition age (w : World) (s : SessionData) : Z := (now w - last_accessed s)%Z.




(** The world [w] with the object at [l] replaced by [s]. *)
Definition upd (l : loc) (s : SessionData) (w : World) : World :=
  set_heap (<[l := s]> (heap w)) w.

(** The world [w] after a call of [generate] on [msgs]. *)
Definition called (env : Env) (msgs : list Message) (w : World) : World :=
  {| now := (now w + llm_elapsed env (length (llm_calls w)))%Z;
     heap := heap w; mem_sessions := mem_sessions w;
     redis_keys := redis_keys w; uuid_drawn := uuid_drawn w;
     llm_calls := llm_calls w ++ [msgs] |}.

(** The Redis server accepts the time to live of the configuration. *)
Definition ttl_ok (env : Env) : Prop :=
  match session_backend (settings env) with
  | Memory => True
  | Redis => (0 < session_timeout_minutes (settings env))%Z
  end.

(** The store holds the record [s] under the identifier [sid], expired or
    not. *)
Definition held (env : Env) (w : World) (sid : string) (s : SessionData) : Prop :=
  match session_backend (settings env) with
  | Memory => ∃ l : loc, mem_sessions w !! sid = Some l ∧ heap w !! l = Some s
  | Redis =>
      ∃ deadline : Z,
        redis_keys w !! RedisSessionManager._get_key sid = Some (s, deadline)
  end.

(** The computation [m] makes at most [n] calls of [generate], whatever the
    state it starts in and however it ends. *)
Definition calls_le {A : Type} (n : nat) (m : M A) : Prop :=
  ∀ w, length (llm_calls (m w).2) ≤ length (llm_calls w) + n.

(** The language model answers every call. *)
Definition llm_total (env : Env) : Prop :=
  ∀ n msgs, ∃ text, llm_generate env n msgs = inr text.

Definition user_turn (text : string) : Message :=
  {| role := "user"; content := text |}.

Definition system_turn (text : string) : Message :=
  {| role := "system"; content := text |}.

Definition assistant_turn (text : string) : Message :=
  {| role := "assistant"; content := text |}.

(** The filter key a story starts with: the one of the request, or the
    default of the settings. *)
Definition chosen_filter (env : Env) (request : StoryStartRequest.t) : string :=
  if truthy (StoryStartRequest.content_filter request)
  then fmt_optional (StoryStartRequest.content_filter request)
  else default_content_filter (settings env).

(** The system turn a story starts with. *)
Definition story_system_prompt (env : Env) (request : StoryStartRequest.t)
    (filter_type : ContentFilterEnum) : string :=
  ((PromptManager.get_system_prompt env STORY filter_type +:+ LF +:+ LF
      +:+ StoryService._get_age_appropriate_prompt
            (StoryStartRequest.age_group request))
     +:+ LF +:+ LF
     +:+ StoryService._get_length_prompt (StoryStartRequest.story_length request)).

(** [apply_filter] and [validate_content] of the service's manager for a
    member of the enum. *)
Definition filtered (env : Env) (f : ContentFilterEnum) (text : string) : string :=
  SafetyFilterManager.apply_filter (safety_manager env) text (ContentFilter_value f).

Definition validated (env : Env) (f : ContentFilterEnum) (text : string)
  : bool * option string :=
  SafetyFilterManager.validate_content (safety_manager env) text
    (ContentFilter_value f).

(** A lookup under [sid] would find a record. *)
Definition present (env : Env) (w : World) (sid : string) : Prop :=
  match session_backend (settings env) with
  | Memory => is_Some (mem_sessions w !! sid)
  | Redis => is_Some (RedisServer.visible w (RedisSessionManager._get_key sid))
  end.

(** What [update_session] does with the object [s] at address [l]: its
    result and the state it leaves. *)
Definition after_update (env : Env) (l : loc) (s : SessionData) (w : World)
  : bool * World :=
  match session_backend (settings env) with
  | Memory =>
      match mem_sessions w !! session_id s with
      | Some _ =>
          (true, set_mem_sessions (<[session_id s := l]> (mem_sessions w)) w)
      | None => (false, w)
      end
  | Redis =>
      let key := RedisSessionManager._get_key (session_id s) in
      if bool_decide (is_Some (RedisServer.visible w key))
      then (true,
            set_redis_keys
              (<[key := (s, (now w + minutes (session_timeout_minutes (settings env)))%Z)]>
                 (redis_keys w)) w)
      else (false, w)
  end.

(** ** Sample scenarios *)

Definition sample_settings (b : SessionBackend) : Settings :=
  {| session_backend := b;
     session_timeout_minutes := 60;
     safety_filters_enabled := true;
     default_content_filter := "moral_values";
     max_story_length := 5 |}.

(** The language model answers with [replies], one per call, and with
    "The end." once they are used up; every call takes one second. *)
Definition sample_env (b : SessionBackend) (replies : list string) : Env :=
  {| settings := sample_settings b;
     uuid4 := λ n, "session-" +:+ String (ascii_of_nat (48 + n)) "";
     llm_generate := λ n _, inr (default "The end." (replies !! n));
     llm_elapsed := λ _, 1000000%Z;
     load_prompt := λ _ _, "You tell stories." |}.

Definition sample_session (sid : string) (m : SessionMode) (t : Z)
    (msgs : list Message) : SessionData :=
  {| session_id := sid; mode := m; created_at := t; last_accessed := t;
     messages := msgs; metadata := ∅;
     config := <["max_story_length" := VInt 5]>
                 (<["content_filter" := VStr "moral_values"]> ∅) |}.

(** A world at instant [t] whose in-process store holds [s]. *)
Definition mem_world (t : Z) (s : SessionData) : World :=
  {| now := t; heap := [s]; mem_sessions := {[ session_id s := 0 ]};
     redis_keys := ∅; uuid_drawn := 0; llm_calls := [] |}.

(** A world at instant [t] whose Redis server holds [s] up to [deadline];
    the object at address 0 is a copy of [s] in the hands of a caller. *)
Definition redis_world (t : Z) (s : SessionData) (deadline : Z) : World :=
  {| now := t; heap := [s]; mem_sessions := ∅;
     redis_keys := {[ RedisSessionManager._get_key (session_id s) := (s, deadline) ]};
     uuid_drawn := 0; llm_calls := [] |}.

Definition empty_world : World :=
  {| now := 0; heap := []; mem_sessions := ∅; redis_keys := ∅;
     uuid_drawn := 0; llm_calls := [] |}.

(* ===================================================================== *)
(** * Part II: properties                                                 *)
(* ===================================================================== *)

(** ** Strings *)

Section StringFacts.

Import PyStr.

Lemma app_nil_l (s : string) : "" +:+ s = s.
Proof. reflexivity. Qed.

Lemma app_cons (c : ascii) (s t : string) :
  String c s +:+ t = String c (s +:+ t).
Proof. reflexivity. Qed.




Lemma startswith_spec (p s : string) :
  startswith p s = true ↔ ∃ b, s = p +:+ b.
Proof.
  revert s. induction p as [|a p IH]; intros s; simpl.
  - split; [intros _; by exists s | done].
  - destruct s as [|b s].
    + split; [done | intros [r Hr]; rewrite app_cons in Hr; discriminate].
    + rewrite andb_true_iff, IH, Ascii.eqb_eq. split.
      * intros [-> [r ->]]. by exists r.
      * intros [r Hr]. rewrite app_cons in Hr. injection Hr as -> ->. eauto.
Qed.

Lemma contains_spec (sub s : string) :
  contains sub s = true ↔ occurs sub s.
Proof.
  unfold occurs. induction s as [|c s IH].
  - simpl. rewrite orb_false_r, startswith_spec. split.
    + intros [b Hb]. by exists "", b.
    + intros [a [b Hab]]. destruct a; [by exists b|].
      rewrite app_cons in Hab. discriminate.
  - cbn [contains]. rewrite orb_true_iff, startswith_spec, IH. split.
    + intros [[b Hb] | [a [b Hab]]].
      * by exists "", b.
      * exists (String c a), b. by rewrite app_cons, Hab.
    + intros [a [b Hab]]. destruct a as [|x a].
      * left. by exists b.
      * right. rewrite app_cons in Hab. injection Hab as -> ->. eauto.
Qed.

Lemma lower_app (a b : string) : lower (a +:+ b) = lower a +:+ lower b.
Proof.
  induction a as [|x a IH]; [done|].
  rewrite app_cons. simpl. by rewrite IH, app_cons.
Qed.

Lemma lower_app_inv (s x y : string) :
  lower s = x +:+ y →
  ∃ s1 s2, s = s1 +:+ s2 ∧ lower s1 = x ∧ lower s2 = y.
Proof.
  revert s. induction x as [|c x IH]; intros s Hs.
  - by exists "", s.
  - destruct s as [|d s]; [rewrite app_cons in Hs; discriminate|].
    rewrite app_cons in Hs. simpl in Hs. injection Hs as Hc Hs.
    destruct (IH s Hs) as (s1 & s2 & -> & <- & <-).
    exists (String d s1), s2. rewrite app_cons. simpl. by rewrite Hc.
Qed.

(** On a keyword written in lower case, the test [w in content.lower()]
    decides occurrence up to case. *)
Lemma contains_lower_ci (w s : string) :
  lower w = w → contains w (lower s) = true ↔ occurs_ci w s.
Proof.
  intros Hw. rewrite contains_spec. unfold occurs, occurs_ci. split.
  - intros (a & b & Hab).
    destruct (lower_app_inv _ _ _ Hab) as (s1 & s2 & -> & <- & H2).
    destruct (lower_app_inv _ _ _ H2) as (m & s3 & -> & Hm & <-).
    exists s1, m, s3. by rewrite Hm, Hw.
  - intros (a & m & b & -> & Hm).
    exists (lower a), (lower b). by rewrite !lower_app, Hm, Hw.
Qed.

(** The keywords found by a comprehension
    [[w for w in keywords if w in content_lower]]. *)
Lemma found_keywords (keywords : list string) (content w : string) :
  Forall (λ k, lower k = k) keywords →
  In w (List.filter (λ k, contains k (lower content)) keywords) ↔
  In w keywords ∧ occurs_ci w content.
Proof.
  intros Hlow. rewrite filter_In. split.
  - intros [Hin Hc]. split; [done|].
    apply contains_lower_ci; [|done].
    rewrite Forall_forall in Hlow. apply Hlow. by apply list_elem_of_In.
  - intros [Hin Hc]. split; [done|].
    apply contains_lower_ci; [|done].
    rewrite Forall_forall in Hlow. apply Hlow. by apply list_elem_of_In.
Qed.

Lemma length_zero_no_member {A : Type} (l : list A) :
  (length l =? 0)%nat = true ↔ ∀ x, ¬ In x l.
Proof.
  destruct l as [|a l]; simpl.
  - split; [intros _ x [] | done].
  - split; [done|]. intros H. exfalso. apply (H a). by left.
Qed.

End StringFacts.

(** ** The moral-values filter: validation *)

Section MoralValidate.

Import PyStr MoralValuesFilter.








End MoralValidate.


(** ** The substitution of whole words *)

Section WordSubstitution.

Import PyStr.






(** *** The scanner on one run *)







(** *** Rewriting word by word *)









End WordSubstitution.

(** ** The filters' transforms *)

Section FilterApply.

Import PyStr.










Lemma count_app (c : ascii) (a b : string) :
  count c (a +:+ b) = count c a + count c b.
Proof.
  induction a as [|x a IH]; [done|]. rewrite app_cons. simpl. rewrite IH. lia.
Qed.

Lemma fun_apply_count (s : string) :
  count "!" (FunOnlyFilter.apply s) = 3 * count "!" s.
Proof.
  unfold FunOnlyFilter.apply. induction s as [|c s IH]; [done|].
  cbn [replace count]. destruct (Ascii.eqb c "!") eqn:E.
  - rewrite count_app, IH. change (count "!" "!!!") with 3. lia.
  - cbn [count]. rewrite E, IH. lia.
Qed.


End FilterApply.


(** ** The filter manager *)

Section FilterManager.

Lemma get_filter_unknown (enabled : bool) (filter_type : string) :
  filter_type ≠ "moral_values" → filter_type ≠ "educational" →
  filter_type ≠ "fun_only" →
  SafetyFilterManager.get_filter (SafetyFilterManager.new enabled) filter_type
  = None.
Proof.
  intros H1 H2 H3. unfold SafetyFilterManager.get_filter, SafetyFilterManager.new.
  cbn [SafetyFilterManager.filters].
  rewrite !lookup_insert_ne by done. apply lookup_empty.
Qed.

Lemma get_filter_known (enabled : bool) (f : ContentFilterEnum) :
  SafetyFilterManager.get_filter (SafetyFilterManager.new enabled)
    (ContentFilter_value f)
  = Some match f with
         | MORAL_VALUES => MoralValuesFilter.new
         | EDUCATIONAL => EducationalFilter.new
         | FUN_ONLY => FunOnlyFilter.new
         end.
Proof. by destruct f. Qed.

End FilterManager.

(** C9. With a filter type other than the three registered keys, and
    likewise when the safety filters are disabled, [apply_filter] returns
    the content unchanged and [validate_content] returns [(True, None)]. *)
Theorem C9_unknown_filter_passes (enabled : bool) (content filter_type : string) :
  (filter_type ≠ "moral_values" ∧ filter_type ≠ "educational" ∧
   filter_type ≠ "fun_only") ∨ enabled = false →
  SafetyFilterManager.apply_filter (SafetyFilterManager.new enabled)
    content filter_type = content ∧
  SafetyFilterManager.validate_content (SafetyFilterManager.new enabled)
    content filter_type = (true, None).
Proof.
  unfold SafetyFilterManager.apply_filter, SafetyFilterManager.validate_content.
  intros [(H1 & H2 & H3) | ->]; [|done].
  rewrite get_filter_unknown by done. by destruct enabled.
Qed.

Lemma C9_unknown_filter_passes_witness :
  SafetyFilterManager.apply_filter (SafetyFilterManager.new true)
    "A scary fight" "bedtime" = "A scary fight" ∧
  SafetyFilterManager.validate_content (SafetyFilterManager.new true)
    "A scary fight" "bedtime" = (true, None).
Proof.
  apply (C9_unknown_filter_passes true "A scary fight" "bedtime").
  left. repeat split; discriminate.
Defined.

(** ** Subject detection *)

Section DetectSubject.

Import PyStr TutorService.







(** *** [max] keeps the first of the greatest entries *)






End DetectSubject.

Section DetectSubjectCases.

Import PyStr TutorService.







End DetectSubjectCases.




(** ** The in-process store *)

Ltac run :=
  repeat (unfold mbind, M_bind, mret, M_ret, raise, get_world, put_world,
            utcnow, deref, assign, alloc; cbn beta iota zeta).

Section InMemoryStore.

Import InMemorySessionManager.

Variable env : Env.

Lemma set_mem_sessions_same (w : World) :
  set_mem_sessions (mem_sessions w) w = w.
Proof. by destruct w. Qed.

Lemma is_expired_age (s : SessionData) (w : World) (m : Z) :
  SessionData_.is_expired s m (now w) = true ↔ (minutes m < age w s)%Z.
Proof.
  unfold SessionData_.is_expired, age. cbv zeta. rewrite Z.ltb_lt. lia.
Qed.

Lemma delete_session_eq (sid : string) (w : World) :
  delete_session sid w
  = (inr (bool_decide (is_Some (mem_sessions w !! sid))),
     set_mem_sessions (delete sid (mem_sessions w)) w).
Proof.
  unfold delete_session. destruct (mem_sessions w !! sid) as [l|] eqn:E.
  - by rewrite bool_decide_true.
  - rewrite bool_decide_false by (by intros [? ?]).
    by rewrite delete_id, set_mem_sessions_same.
Qed.

Lemma get_session_absent (sid : string) (w : World) :
  mem_sessions w !! sid = None → get_session env sid w = (inr None, w).
Proof. intros H. unfold get_session. run. by rewrite H. Qed.

Lemma get_session_expired (sid : string) (l : loc) (s : SessionData) (w : World) :
  mem_sessions w !! sid = Some l → heap w !! l = Some s →
  SessionData_.is_expired s (timeout_minutes env) (now w) = true →
  get_session env sid w
  = (inr None, set_mem_sessions (delete sid (mem_sessions w)) w).
Proof.
  intros Hm Hh He. unfold get_session. run. rewrite Hm. run.
  rewrite Hh, He. run. by rewrite delete_session_eq.
Qed.

Lemma get_session_live (sid : string) (l : loc) (s : SessionData) (w : World) :
  mem_sessions w !! sid = Some l → heap w !! l = Some s →
  SessionData_.is_expired s (timeout_minutes env) (now w) = false →
  get_session env sid w
  = (inr (Some l),
     set_heap (<[l := SessionData_.with_last_accessed (now w) s]> (heap w)) w).
Proof.
  intros Hm Hh He. unfold get_session. run. rewrite Hm. run.
  by rewrite Hh, He.
Qed.

Lemma update_session_known (l : loc) (s : SessionData) (l0 : loc) (w : World) :
  heap w !! l = Some s → mem_sessions w !! session_id s = Some l0 →
  update_session l w
  = (inr true, set_mem_sessions (<[session_id s := l]> (mem_sessions w)) w).
Proof. intros Hh Hm. unfold update_session. run. by rewrite Hh, Hm. Qed.

Lemma update_session_unknown (l : loc) (s : SessionData) (w : World) :
  heap w !! l = Some s → mem_sessions w !! session_id s = None →
  update_session l w = (inr false, w).
Proof. intros Hh Hm. unfold update_session. run. by rewrite Hh, Hm. Qed.

End InMemoryStore.

Section InMemorySweep.

Import InMemorySessionManager.

Variable env : Env.

Lemma expired_ids_eq (items : list (string * loc)) (w : World) :
  (∀ kv, In kv items → is_Some (heap w !! kv.2)) →
  expired_ids env items w
  = (inr (map fst (List.filter (λ kv, is_expired_at env w kv.2) items)), w).
Proof.
  induction items as [|[sid l] items IH]; intros Hall; [done|].
  destruct (Hall (sid, l)) as [s Hs]; [by left|]. simpl in Hs.
  cbn [expired_ids]. run. rewrite Hs. run.
  rewrite IH by (intros kv Hkv; apply Hall; by right).
  assert (He : is_expired_at env w l
               = SessionData_.is_expired s (timeout_minutes env) (now w)).
  { unfold is_expired_at. by rewrite Hs. }
  cbn [List.filter snd]. rewrite He.
  by destruct (SessionData_.is_expired _ _ _).
Qed.

Lemma delete_all_eq (ids : list string) (w : World) :
  delete_all ids w
  = (inr tt,
     set_mem_sessions (fold_left (λ m sid, delete sid m) ids (mem_sessions w)) w).
Proof.
  revert w. induction ids as [|sid ids IH]; intros w.
  - simpl. by rewrite set_mem_sessions_same.
  - cbn [delete_all]. run. rewrite delete_session_eq, IH. done.
Qed.

Lemma lookup_fold_delete (ids : list string) (m : gmap string loc) (k : string) :
  fold_left (λ m sid, delete sid m) ids m !! k
  = if decide (k ∈ ids) then None else m !! k.
Proof.
  revert m. induction ids as [|sid ids IH]; intros m; cbn [fold_left].
  - destruct (decide (k ∈ [])) as [Hin|_]; [|done].
    by apply not_elem_of_nil in Hin.
  - rewrite IH.
    destruct (decide (k ∈ ids)) as [Hin|Hin];
      destruct (decide (k ∈ sid :: ids)) as [Hin'|Hin']; try done.
    + exfalso. apply Hin'. apply elem_of_cons. by right.
    + apply elem_of_cons in Hin' as [->|?]; [|done]. apply lookup_delete_eq.
    + apply lookup_delete_ne. intros ->. apply Hin', elem_of_cons. by left.
Qed.

Lemma expired_id_member (m : gmap string loc) (w : World) (k : string) :
  In k (map fst (List.filter (λ kv, is_expired_at env w kv.2) (map_to_list m)))
  ↔ ∃ l, m !! k = Some l ∧ is_expired_at env w l = true.
Proof.
  rewrite in_map_iff. split.
  - intros ([k' l] & <- & [Hin He]%filter_In). exists l. split; [|done].
    by apply elem_of_map_to_list, list_elem_of_In.
  - intros (l & Hl & He). exists (k, l). split; [done|].
    apply filter_In. split; [|done].
    by apply list_elem_of_In, elem_of_map_to_list.
Qed.

Lemma filter_bool_length {A : Type} (b : A → bool) (l : list A) :
  length (List.filter b l) = length (filter (λ x, b x = true) l).
Proof.
  induction l as [|x l IH]; [done|]. cbn [List.filter].
  rewrite filter_cons. destruct (decide (b x = true)) as [E|E].
  - rewrite E. simpl. by rewrite IH.
  - apply not_true_is_false in E. by rewrite E.
Qed.

Lemma expired_count (m : gmap string loc) (w : World) :
  length (List.filter (λ kv, is_expired_at env w kv.2) (map_to_list m))
  = size (filter (λ kv : string * loc, is_expired_at env w kv.2 = true) m).
Proof.
  rewrite filter_bool_length, <- length_map_to_list, map_filter_alt.
  symmetry. apply Permutation_length, map_to_list_to_map.
  apply NoDup_fmap_fst.
  - intros k x y [_ Hx]%list_elem_of_filter [_ Hy]%list_elem_of_filter.
    apply elem_of_map_to_list in Hx, Hy. congruence.
  - apply NoDup_filter, NoDup_map_to_list.
Qed.

(** The sweep of the in-process store. *)
Lemma cleanup_expired_sessions_eq (w : World) :
  wf w →
  ∃ w',
    cleanup_expired_sessions env w
    = (inr (size (filter (λ kv : string * loc, is_expired_at env w kv.2 = true)
                         (mem_sessions w))), w') ∧
    mem_sessions w'
    = filter (λ kv : string * loc, is_expired_at env w kv.2 = false)
             (mem_sessions w) ∧
    heap w' = heap w ∧ now w' = now w ∧ redis_keys w' = redis_keys w ∧
    llm_calls w' = llm_calls w.
Proof.
  intros Hwf. unfold cleanup_expired_sessions. run.
  rewrite expired_ids_eq.
  2:{ intros [k l] Hkv%list_elem_of_In%elem_of_map_to_list. by apply (Hwf k l). }
  run. rewrite delete_all_eq. eexists. split.
  { by rewrite length_map, expired_count. }
  cbn [set_mem_sessions mem_sessions heap now redis_keys llm_calls].
  split; [|done].
  apply map_eq. intros k. rewrite lookup_fold_delete.
  destruct (decide _) as [Hin|Hin].
  - apply list_elem_of_In, expired_id_member in Hin as (l & Hl & He). symmetry.
    apply map_lookup_filter_None. right. intros l' Hl'. simpl.
    rewrite Hl in Hl'. injection Hl' as <-. by rewrite He.
  - destruct (mem_sessions w !! k) as [l|] eqn:Hl.
    + symmetry. apply map_lookup_filter_Some. split; [done|]. simpl.
      apply not_true_iff_false. intros He. apply Hin.
      apply list_elem_of_In, expired_id_member. by exists l.
    + symmetry. apply map_lookup_filter_None. by left.
Qed.

End InMemorySweep.

(** ** The Redis store *)

Section RedisStore.

Import RedisSessionManager.

Variable env : Env.

Lemma heap_alloc_lookup (h : list SessionData) (s : SessionData) :
  (h ++ [s]) !! length h = Some s.
Proof. by rewrite lookup_app_r, Nat.sub_diag. Qed.

Lemma heap_alloc_insert (h : list SessionData) (s s' : SessionData) :
  <[length h := s']> (h ++ [s]) = h ++ [s'].
Proof. by rewrite insert_app_r_alt, Nat.sub_diag. Qed.

Lemma redis_update_known (l : loc) (s s0 : SessionData) (w : World) :
  heap w !! l = Some s →
  RedisServer.visible w (_get_key (session_id s)) = Some s0 →
  (0 < timeout_minutes env)%Z →
  update_session env l w
  = (inr true,
     set_redis_keys
       (<[_get_key (session_id s) := (s, (now w + minutes (timeout_minutes env))%Z)]>
          (redis_keys w)) w).
Proof.
  intros Hh Hv Ht. unfold update_session. run. rewrite Hh.
  unfold RedisServer.exists_. rewrite Hv.
  rewrite bool_decide_true by eauto. cbn [negb].
  unfold RedisServer.setex.
  destruct (minutes (timeout_minutes env) <=? 0)%Z eqn:E; [|done].
  apply Z.leb_le in E. unfold minutes in E. lia.
Qed.

Lemma redis_update_unknown (l : loc) (s : SessionData) (w : World) :
  heap w !! l = Some s →
  RedisServer.visible w (_get_key (session_id s)) = None →
  update_session env l w = (inr false, w).
Proof.
  intros Hh Hv. unfold update_session. run. rewrite Hh.
  unfold RedisServer.exists_. rewrite Hv.
  by rewrite bool_decide_false by (by intros [? ?]).
Qed.

Lemma redis_get_known (sid : string) (d : SessionData) (w : World) :
  RedisServer.visible w (_get_key sid) = Some d →
  session_id d = sid →
  (0 < timeout_minutes env)%Z →
  get_session env sid w
  = (inr (Some (length (heap w))),
     set_redis_keys
       (<[_get_key sid :=
            (SessionData_.with_last_accessed (now w) d,
             (now w + minutes (timeout_minutes env))%Z)]> (redis_keys w))
       (set_heap (heap w ++ [SessionData_.with_last_accessed (now w) d]) w)).
Proof.
  intros Hv Hid Ht. unfold get_session. run.
  unfold RedisServer.get at 1. rewrite Hv. run.
  cbn [set_heap heap now].
  rewrite heap_alloc_lookup. run. cbn [set_heap heap now].
  rewrite heap_alloc_insert.
  set (d' := SessionData_.with_last_accessed (now w) d).
  set (w1 := set_heap (heap w ++ [d']) (set_heap (heap w ++ [d]) w)).
  assert (Hh1 : heap w1 !! length (heap w) = Some d').
  { subst w1. cbn [set_heap heap]. apply heap_alloc_lookup. }
  assert (Hv1 : RedisServer.visible w1 (_get_key (session_id d')) = Some d).
  { subst w1 d'. cbn [session_id SessionData_.with_last_accessed]. by rewrite Hid. }
  rewrite (redis_update_known _ d' d w1 Hh1 Hv1 Ht).
  subst d' w1. cbn [session_id SessionData_.with_last_accessed]. by rewrite Hid.
Qed.

Lemma redis_get_unknown (sid : string) (w : World) :
  RedisServer.visible w (_get_key sid) = None →
  get_session env sid w = (inr None, w).
Proof.
  intros Hv. unfold get_session. run. unfold RedisServer.get. by rewrite Hv.
Qed.

End RedisStore.

(** ** The store contract *)

(** C2. In the in-process store, a lookup of a session whose time since the
    last access exceeds the timeout returns [None] and removes the record, so
    that later lookups and sweeps find the identifier absent; a lookup of a
    session within its timeout returns it and sets its [last_accessed] to the
    current instant. *)
Theorem C2_get_session_sliding_ttl
    (env : Env) (w : World) (sid : string) (l : loc) (s : SessionData) :
  mem_sessions w !! sid = Some l →
  heap w !! l = Some s →
  ((minutes (session_timeout_minutes (settings env)) < age w s)%Z →
     ∃ w',
       InMemorySessionManager.get_session env sid w = (inr None, w') ∧
       mem_sessions w' = delete sid (mem_sessions w) ∧
       mem_sessions w' !! sid = None ∧
       heap w' = heap w ∧
       (∀ w2, mem_sessions w2 !! sid = None →
              InMemorySessionManager.get_session env sid w2 = (inr None, w2)) ∧
       (∀ w2, wf w2 → mem_sessions w2 !! sid = None →
              ∃ n w3,
                InMemorySessionManager.cleanup_expired_sessions env w2 = (inr n, w3) ∧
                mem_sessions w3 !! sid = None)) ∧
  ((age w s ≤ minutes (session_timeout_minutes (settings env)))%Z →
     ∃ w',
       InMemorySessionManager.get_session env sid w = (inr (Some l), w') ∧
       heap w' !! l = Some (SessionData_.with_last_accessed (now w) s) ∧
       (∀ s', heap w' !! l = Some s' →
              last_accessed s' = now w ∧ messages s' = messages s ∧
              config s' = config s ∧ mode s' = mode s) ∧
       mem_sessions w' = mem_sessions w).
Proof.
  intros Hm Hh. split.
  - intros Hage. apply is_expired_age in Hage.
    eexists. split; [by apply (get_session_expired env sid l s)|].
    cbn [set_mem_sessions mem_sessions heap].
    split; [done|]. split; [apply lookup_delete_eq|]. split; [done|]. split.
    + intros w2. apply get_session_absent.
    + intros w2 Hwf Hno.
      destruct (cleanup_expired_sessions_eq env w2 Hwf) as (w3 & -> & Hm3 & _).
      do 2 eexists. split; [done|]. rewrite Hm3.
      apply map_lookup_filter_None. by left.
  - intros Hage.
    assert (He : SessionData_.is_expired s
                   (InMemorySessionManager.timeout_minutes env) (now w) = false).
    { apply not_true_iff_false. rewrite is_expired_age.
      unfold InMemorySessionManager.timeout_minutes. lia. }
    eexists. split; [by apply (get_session_live env sid l s)|].
    cbn [set_heap mem_sessions heap].
    assert (Hl : heap w !! l = Some s) by done.
    apply lookup_lt_Some in Hl.
    rewrite list_lookup_insert_eq by done.
    split; [done|]. split; [|done].
    by intros s' [= <-].
Qed.

Lemma C2_get_session_sliding_ttl_witness :
  (InMemorySessionManager.get_session (sample_env Memory []) "abc"
     (mem_world 3660000000 (sample_session "abc" STORY 0 []))).1 = inr None ∧
  (InMemorySessionManager.get_session (sample_env Memory []) "abc"
     (mem_world 3540000000 (sample_session "abc" STORY 0 []))).1 = inr (Some 0).
Proof.
  split.
  - destruct (C2_get_session_sliding_ttl (sample_env Memory [])
                (mem_world 3660000000 (sample_session "abc" STORY 0 []))
                "abc" 0 (sample_session "abc" STORY 0 []))
      as [Hexpired _]; [by vm_compute | by vm_compute |].
    destruct Hexpired as (w' & -> & _); [by vm_compute | done].
  - destruct (C2_get_session_sliding_ttl (sample_env Memory [])
                (mem_world 3540000000 (sample_session "abc" STORY 0 []))
                "abc" 0 (sample_session "abc" STORY 0 []))
      as [_ Hlive]; [by vm_compute | by vm_compute |].
    destruct Hlive as (w' & -> & _); [by vm_compute | done].
Defined.

(** C4. The sweep of the Redis store returns 0 and changes nothing, whatever
    the instant and the content of the store.  The sweep of the in-process
    store removes exactly the records whose time since the last access
    exceeds the timeout and returns their number. *)
Theorem C4_cleanup_expired_sessions (env : Env) (w : World) :
  RedisSessionManager.cleanup_expired_sessions w = (inr 0, w) ∧
  (∀ l s, heap w !! l = Some s →
     is_expired_at env w l = true ↔
     (minutes (session_timeout_minutes (settings env)) < age w s)%Z) ∧
  (wf w →
   ∃ w',
     InMemorySessionManager.cleanup_expired_sessions env w
     = (inr (size (filter (λ kv : string * loc, is_expired_at env w kv.2 = true)
                          (mem_sessions w))), w') ∧
     mem_sessions w'
     = filter (λ kv : string * loc, is_expired_at env w kv.2 = false)
              (mem_sessions w) ∧
     (∀ sid, mem_sessions w' !! sid = None ↔
             mem_sessions w !! sid = None ∨
             ∃ l, mem_sessions w !! sid = Some l ∧ is_expired_at env w l = true) ∧
     heap w' = heap w).
Proof.
  split; [done|]. split.
  - intros l s Hs. unfold is_expired_at. rewrite Hs. apply is_expired_age.
  - intros Hwf.
    destruct (cleanup_expired_sessions_eq env w Hwf) as (w' & Hrun & Hm & Hh & _).
    exists w'. split; [done|]. split; [done|]. split; [|done].
    intros sid. rewrite Hm, map_lookup_filter_None. split.
    + intros [Hno | Hall]; [by left|].
      destruct (mem_sessions w !! sid) as [l|] eqn:E; [|by left].
      right. exists l. split; [done|].
      specialize (Hall l eq_refl). simpl in Hall.
      by destruct (is_expired_at env w l).
    + intros [Hno | (l & Hl & He)]; [by left|].
      right. intros l' Hl'. simpl. rewrite Hl in Hl'. injection Hl' as <-.
      by rewrite He.
Qed.

Lemma C4_cleanup_expired_sessions_witness :
  (InMemorySessionManager.cleanup_expired_sessions (sample_env Memory [])
     (mem_world 3660000000 (sample_session "abc" STORY 0 []))).1 = inr 1 ∧
  (InMemorySessionManager.cleanup_expired_sessions (sample_env Memory [])
     (mem_world 3540000000 (sample_session "abc" STORY 0 []))).1 = inr 0.
Proof.
  split.
  - destruct (C4_cleanup_expired_sessions (sample_env Memory [])
                (mem_world 3660000000 (sample_session "abc" STORY 0 [])))
      as (_ & _ & Hsweep).
    destruct Hsweep as (w' & -> & _); [|by vm_compute].
    intros sid l Hl. unfold mem_world, sample_session in Hl.
    cbn [mem_sessions session_id] in Hl.
    apply lookup_singleton_Some in Hl as [_ <-]. by eexists.
  - destruct (C4_cleanup_expired_sessions (sample_env Memory [])
                (mem_world 3540000000 (sample_session "abc" STORY 0 [])))
      as (_ & _ & Hsweep).
    destruct Hsweep as (w' & -> & _); [|by vm_compute].
    intros sid l Hl. unfold mem_world, sample_session in Hl.
    cbn [mem_sessions session_id] in Hl.
    apply lookup_singleton_Some in Hl as [_ <-]. by eexists.
Defined.

Section UpdateDeadline.

Variable env : Env.

(** After an update of the in-process store, the deadline of the record is
    still the one its [last_accessed] field gives. *)
Lemma memory_update_deadline (l l0 : loc) (s : SessionData) (w : World) :
  heap w !! l = Some s → mem_sessions w !! session_id s = Some l0 →
  ∃ w',
    InMemorySessionManager.update_session l w = (inr true, w') ∧
    mem_sessions w' !! session_id s = Some l ∧
    heap w' = heap w ∧
    ∀ t, is_expired_at env (set_now t w') l
         = SessionData_.is_expired s (session_timeout_minutes (settings env)) t.
Proof.
  intros Hh Hm. eexists.
  split; [by apply (update_session_known l s l0)|].
  cbn [set_mem_sessions mem_sessions heap].
  split; [apply lookup_insert_eq|]. split; [done|].
  intros t. unfold is_expired_at.
  cbn [set_now set_mem_sessions heap now]. by rewrite Hh.
Qed.

(** After an update of the Redis store, the key expires one timeout after
    the update. *)
Lemma redis_update_deadline (l : loc) (s s0 : SessionData) (w : World) :
  heap w !! l = Some s →
  RedisServer.visible w (RedisSessionManager._get_key (session_id s)) = Some s0 →
  (0 < session_timeout_minutes (settings env))%Z →
  ∃ w',
    RedisSessionManager.update_session env l w = (inr true, w') ∧
    redis_keys w' !! RedisSessionManager._get_key (session_id s)
    = Some (s, (now w + minutes (session_timeout_minutes (settings env)))%Z).
Proof.
  intros Hh Hv Ht. eexists.
  split; [by apply (redis_update_known env l s s0)|].
  cbn [set_redis_keys redis_keys]. apply lookup_insert_eq.
Qed.

End UpdateDeadline.


(** ** Running the services *)

Section Steps.

Variable env : Env.

Lemma bind_ok {A B : Type} (m : M A) (f : A → M B) (w w' : World) (a : A) :
  m w = (inr a, w') → (m ≫= f) w = f a w'.
Proof. intros H. unfold mbind, M_bind. by rewrite H. Qed.

Lemma bind_raise {A B : Type} (m : M A) (f : A → M B) (w w' : World) (e : Exn) :
  m w = (inl e, w') → (m ≫= f) w = (inl e, w').
Proof. intros H. unfold mbind, M_bind. by rewrite H. Qed.

Lemma upd_lookup (l : loc) (s : SessionData) (w : World) :
  l < length (heap w) → heap (upd l s w) !! l = Some s.
Proof. intros Hl. unfold upd. cbn [set_heap heap]. by apply list_lookup_insert_eq. Qed.

Lemma upd_upd (l : loc) (s1 s2 : SessionData) (w : World) :
  upd l s2 (upd l s1 w) = upd l s2 w.
Proof. unfold upd, set_heap. cbn [heap]. by rewrite list_insert_insert_eq. Qed.

Lemma upd_length (l : loc) (s : SessionData) (w : World) :
  length (heap (upd l s w)) = length (heap w).
Proof. unfold upd. cbn [set_heap heap]. apply length_insert. Qed.

Lemma upd_same (l : loc) (s : SessionData) (w : World) :
  heap w !! l = Some s → upd l s w = w.
Proof.
  intros H. unfold upd, set_heap. rewrite list_insert_id by done. by destruct w.
Qed.

Lemma deref_upd (l : loc) (s : SessionData) (w : World) :
  l < length (heap w) → deref l (upd l s w) = (inr s, upd l s w).
Proof. intros Hl. unfold deref. by rewrite upd_lookup. Qed.

Lemma assign_upd (l : loc) (s1 s2 : SessionData) (w : World) :
  assign l s2 (upd l s1 w) = (inr tt, upd l s2 w).
Proof. unfold assign. fold (upd l s2 (upd l s1 w)). by rewrite upd_upd. Qed.

Lemma messages_append_upd (l : loc) (s : SessionData) (m : Message) (w : World) :
  l < length (heap w) →
  SessionData_.messages_append l m (upd l s w)
  = (inr tt, upd l (SessionData_.with_messages (messages s ++ [m]) s) w).
Proof.
  intros Hl. unfold SessionData_.messages_append.
  rewrite (bind_ok _ _ _ _ _ (deref_upd l s w Hl)). apply assign_upd.
Qed.

Lemma add_message_upd (l : loc) (s : SessionData) (r c : string) (w : World) :
  l < length (heap w) →
  SessionData_.add_message l r c (upd l s w)
  = (inr tt,
     upd l (SessionData_.with_last_accessed (now w)
              (SessionData_.with_messages
                 (messages s ++ [ {| role := r; content := c |} ]) s)) w).
Proof.
  intros Hl. unfold SessionData_.add_message.
  rewrite (bind_ok _ _ _ _ _ (messages_append_upd l s _ w Hl)).
  unfold utcnow. unfold mbind at 1, M_bind at 1.
  rewrite (bind_ok _ _ _ _ _ (deref_upd l _ w Hl)). apply assign_upd.
Qed.

Lemma get_messages_upd (l : loc) (s : SessionData) (w : World) :
  l < length (heap w) →
  get_messages l (upd l s w) = (inr (messages s), upd l s w).
Proof.
  intros Hl. unfold get_messages.
  by rewrite (bind_ok _ _ _ _ _ (deref_upd l s w Hl)).
Qed.

Lemma config_get_upd (l : loc) (s : SessionData) (key : string) (v : PyVal)
    (w : World) :
  l < length (heap w) → config s !! key = Some v →
  config_get l key (upd l s w) = (inr v, upd l s w).
Proof.
  intros Hl Hv. unfold config_get.
  rewrite (bind_ok _ _ _ _ _ (deref_upd l s w Hl)). by rewrite Hv.
Qed.

Lemma config_set_upd (l : loc) (s : SessionData) (key : string) (v : PyVal)
    (w : World) :
  l < length (heap w) →
  SessionData_.config_set l key v (upd l s w)
  = (inr tt, upd l (SessionData_.with_config (<[key := v]> (config s)) s) w).
Proof.
  intros Hl. unfold SessionData_.config_set.
  rewrite (bind_ok _ _ _ _ _ (deref_upd l s w Hl)). apply assign_upd.
Qed.

Lemma generate_upd (l : loc) (s : SessionData) (msgs : list Message)
    (text : string) (w : World) :
  llm_generate env (length (llm_calls w)) msgs = inr text →
  generate env msgs (upd l s w) = (inr text, upd l s (called env msgs w)).
Proof. intros H. unfold generate. cbn [upd set_heap llm_calls]. by rewrite H. Qed.

Lemma ContentFilter_of_value (f : ContentFilterEnum) (w : World) :
  ContentFilter_of (VStr (ContentFilter_value f)) w = (inr f, w).
Proof. by destruct f. Qed.

End Steps.

Section StoreSteps.

Variable env : Env.

Lemma update_session_upd (l : loc) (s : SessionData) (w : World) :
  l < length (heap w) → ttl_ok env →
  ∃ b w',
    SessionManager.update_session env l (upd l s w) = (inr b, upd l s w') ∧
    length (heap w') = length (heap w) ∧ now w' = now w ∧
    llm_calls w' = llm_calls w.
Proof.
  intros Hl Httl. unfold SessionManager.update_session, ttl_ok in *.
  destruct (session_backend (settings env)).
  - unfold InMemorySessionManager.update_session.
    rewrite (bind_ok _ _ _ _ _ (deref_upd l s w Hl)). run.
    change (mem_sessions (upd l s w)) with (mem_sessions w).
    destruct (mem_sessions w !! session_id s) as [l0|].
    + exists true, (set_mem_sessions (<[session_id s := l]> (mem_sessions w)) w).
      done.
    + by exists false, w.
  - unfold RedisSessionManager.update_session.
    rewrite (bind_ok _ _ _ _ _ (deref_upd l s w Hl)). run.
    unfold RedisServer.exists_.
    change (RedisServer.visible (upd l s w)) with (RedisServer.visible w).
    destruct (bool_decide _); cbn [negb].
    + unfold RedisServer.setex.
      destruct (minutes (RedisSessionManager.timeout_minutes env) <=? 0)%Z eqn:E.
      { apply Z.leb_le in E. unfold minutes, RedisSessionManager.timeout_minutes in E.
        lia. }
      eexists true, (set_redis_keys _ w). done.
    + by exists false, w.
Qed.

Lemma get_session_stored (sid : string) (s : SessionData) (w : World) :
  stored env w sid s →
  ∃ l w1,
    SessionManager.get_session env sid w
    = (inr (Some l), upd l (SessionData_.with_last_accessed (now w) s) w1) ∧
    l < length (heap w1) ∧ now w1 = now w ∧ llm_calls w1 = llm_calls w ∧
    held env (upd l (SessionData_.with_last_accessed (now w) s) w1) sid
         (SessionData_.with_last_accessed (now w) s).
Proof.
  unfold stored, held, SessionManager.get_session.
  destruct (session_backend (settings env)).
  - intros (Hid & l & Hm & Hh & He).
    exists l, w. rewrite (get_session_live env sid l s w Hm Hh He).
    pose proof (lookup_lt_Some _ _ _ Hh) as Hl.
    split; [done|]. split; [done|]. split; [done|]. split; [done|].
    exists l. split; [done|]. by apply upd_lookup.
  - intros (Hid & Hv & Ht).
    rewrite (redis_get_known env sid s w Hv Hid Ht).
    set (s1 := SessionData_.with_last_accessed (now w) s).
    set (w1 := set_redis_keys _ _).
    assert (Hh1 : heap w1 !! length (heap w) = Some s1).
    { subst w1. cbn [set_redis_keys set_heap heap]. apply heap_alloc_lookup. }
    exists (length (heap w)), w1. rewrite (upd_same _ _ _ Hh1).
    split; [done|]. split; [by apply lookup_lt_Some in Hh1|].
    split; [done|]. split; [done|].
    eexists. subst w1. cbn [set_redis_keys redis_keys]. apply lookup_insert_eq.
Qed.

Lemma get_session_missing (sid : string) (w : World) :
  (match session_backend (settings env) with
   | Memory => mem_sessions w !! sid = None
   | Redis => RedisServer.visible w (RedisSessionManager._get_key sid) = None
   end) →
  SessionManager.get_session env sid w = (inr None, w).
Proof.
  unfold SessionManager.get_session. destruct (session_backend (settings env)).
  - apply get_session_absent.
  - apply redis_get_unknown.
Qed.

End StoreSteps.

(** ** Tutor operations on a session of the wrong mode *)

(** C10. On a stored, live session whose mode is not [TUTOR], each of
    [ask_question], [update_config] and [get_session_info] of the tutor
    service raises an error; afterwards the store holds the session with the
    message list and the configuration it had, and no call to the language
    model was made. *)
Theorem C10_wrong_mode_rejected
    (env : Env) (w : World) (sid : string) (s : SessionData) :
  stored env w sid s →
  mode s ≠ TUTOR →
  let kept (w' : World) :=
    ∃ s', held env w' sid s' ∧ messages s' = messages s ∧
          config s' = config s ∧ mode s' = mode s ∧
          llm_calls w' = llm_calls w in
  (∀ request, TutorAskRequest.session_id request = sid →
     ∃ w', TutorService.ask_question env request w
           = (inl (ValueError "Session is not in tutor mode"), w') ∧ kept w') ∧
  (∀ request, ConfigRequest.session_id request = sid →
     ∃ w', TutorService.update_config env request w
           = (inl (ValueError "Session is not in tutor mode"), w') ∧ kept w') ∧
  (∃ w', TutorService.get_session_info env sid w
         = (inl (ValueError "Session is not in tutor mode"), w') ∧ kept w').
Proof.
  intros Hst Hmode kept.
  destruct (get_session_stored env sid s w Hst) as (l & w1 & Hget & Hl & _ & Hc & Hheld).
  set (s1 := SessionData_.with_last_accessed (now w) s) in *.
  assert (Hm1 : bool_decide (mode s1 = TUTOR) = false).
  { apply bool_decide_eq_false. exact Hmode. }
  assert (Hkept : kept (upd l s1 w1)).
  { exists s1. split; [done|]. by repeat split. }
  split; [|split].
  - intros request <-. exists (upd l s1 w1). split; [|done].
    unfold TutorService.ask_question.
    rewrite (bind_ok _ _ _ _ _ Hget).
    rewrite (bind_ok _ _ _ _ _ (deref_upd l s1 w1 Hl)). by rewrite Hm1.
  - intros request <-. exists (upd l s1 w1). split; [|done].
    unfold TutorService.update_config.
    rewrite (bind_ok _ _ _ _ _ Hget).
    rewrite (bind_ok _ _ _ _ _ (deref_upd l s1 w1 Hl)). by rewrite Hm1.
  - exists (upd l s1 w1). split; [|done].
    unfold TutorService.get_session_info.
    rewrite (bind_ok _ _ _ _ _ Hget).
    rewrite (bind_ok _ _ _ _ _ (deref_upd l s1 w1 Hl)). by rewrite Hm1.
Qed.

Lemma C10_wrong_mode_rejected_witness :
  (TutorService.ask_question (sample_env Memory [])
     {| TutorAskRequest.session_id := "abc";
        TutorAskRequest.question := "What is a fraction?";
        TutorAskRequest.subject_hint := None |}
     (mem_world 1000 (sample_session "abc" STORY 0 []))).1
  = inl (ValueError "Session is not in tutor mode") ∧
  (TutorService.get_session_info (sample_env Redis []) "abc"
     (redis_world 1000 (sample_session "abc" STORY 0 []) 3600000000)).1
  = inl (ValueError "Session is not in tutor mode").
Proof.
  split.
  - destruct (C10_wrong_mode_rejected (sample_env Memory [])
                (mem_world 1000 (sample_session "abc" STORY 0 []))
                "abc" (sample_session "abc" STORY 0 []))
      as (Hask & _ & _).
    + split; [done|]. exists 0. by vm_compute.
    + discriminate.
    + destruct (Hask {| TutorAskRequest.session_id := "abc";
                        TutorAskRequest.question := "What is a fraction?";
                        TutorAskRequest.subject_hint := None |} eq_refl)
        as (w' & -> & _).
      reflexivity.
  - destruct (C10_wrong_mode_rejected (sample_env Redis [])
                (redis_world 1000 (sample_session "abc" STORY 0 []) 3600000000)
                "abc" (sample_session "abc" STORY 0 []))
      as (_ & _ & Hinfo).
    + split; [done|]. by vm_compute.
    + discriminate.
    + destruct Hinfo as (w' & -> & _). reflexivity.
Defined.

(* ===================================================================== *)
(** * Part III: further properties of the stores                          *)
(* ===================================================================== *)

Section StoreContract.

Variable env : Env.

Lemma visible_set_redis_other (w : World) (r : gmap string (SessionData * Z))
    (key : string) :
  RedisServer.visible (set_redis_keys r w) key
  = match r !! key with
    | Some (v, deadline) => if (now w <=? deadline)%Z then Some v else None
    | None => None
    end.
Proof. reflexivity. Qed.



End StoreContract.


(** X2. [update_session] never inserts: for a session object whose
    identifier the store does not hold (or, on Redis, holds no longer), it
    returns [False] and leaves the state as it was. *)
Theorem update_session_never_inserts
    (env : Env) (w : World) (l : loc) (s : SessionData) :
  heap w !! l = Some s →
  ¬ present env w (session_id s) →
  SessionManager.update_session env l w = (inr false, w).
Proof.
  unfold present, SessionManager.update_session.
  destruct (session_backend (settings env)); intros Hh Hno.
  - apply (update_session_unknown l s w Hh).
    destruct (mem_sessions w !! session_id s) eqn:E; [|done].
    exfalso. apply Hno. eauto.
  - apply (redis_update_unknown env l s w Hh).
    destruct (RedisServer.visible w _) eqn:E; [|done].
    exfalso. apply Hno. eauto.
Qed.

Lemma update_session_never_inserts_witness :
  SessionManager.update_session (sample_env Memory []) 0
    (set_mem_sessions ∅ (mem_world 0 (sample_session "abc" STORY 0 [])))
  = (inr false,
     set_mem_sessions ∅ (mem_world 0 (sample_session "abc" STORY 0 []))) ∧
  SessionManager.update_session (sample_env Redis []) 0
    (redis_world 3600000001 (sample_session "abc" STORY 0 []) 3600000000)
  = (inr false,
     redis_world 3600000001 (sample_session "abc" STORY 0 []) 3600000000).
Proof.
  split.
  - apply (update_session_never_inserts (sample_env Memory []) _ 0
             (sample_session "abc" STORY 0 [])); [done|].
    by intros [? ?].
  - apply (update_session_never_inserts (sample_env Redis []) _ 0
             (sample_session "abc" STORY 0 [])); [done|].
    by intros [? ?].
Defined.

Section CreateAndRefresh.

Variable env : Env.

Lemma create_session_stored (mode : SessionMode) (w : World) :
  (0 < session_timeout_minutes (settings env))%Z →
  ∃ w1,
    SessionManager.create_session env mode w
    = (inr (uuid4 env (uuid_drawn w)), w1) ∧
    stored env w1 (uuid4 env (uuid_drawn w))
           (SessionData_.init env (uuid4 env (uuid_drawn w)) mode (now w)) ∧
    now w1 = now w ∧ llm_calls w1 = llm_calls w ∧
    uuid_drawn w1 = S (uuid_drawn w).
Proof.
  intros Ht. unfold SessionManager.create_session, stored.
  destruct (session_backend (settings env)).
  - unfold InMemorySessionManager.create_session, draw_uuid. run.
    eexists. split; [done|].
    cbn [set_mem_sessions set_heap mem_sessions heap now llm_calls uuid_drawn].
    split; [|done]. split; [done|]. exists (length (heap w)).
    split; [apply lookup_insert_eq|]. split; [apply heap_alloc_lookup|].
    unfold SessionData_.is_expired, SessionData_.init, minutes.
    cbn [last_accessed]. apply Z.ltb_ge. lia.
  - unfold RedisSessionManager.create_session, draw_uuid. run.
    unfold RedisServer.setex. cbn [now].
    destruct (minutes (RedisSessionManager.timeout_minutes env) <=? 0)%Z eqn:E.
    { apply Z.leb_le in E. unfold minutes, RedisSessionManager.timeout_minutes in E.
      lia. }
    eexists. split; [done|].
    cbn [set_redis_keys redis_keys now llm_calls uuid_drawn].
    split; [|done]. split; [done|]. split; [|done].
    rewrite visible_set_redis_other, lookup_insert_eq. cbn [now].
    destruct (Z.leb_spec (now w)
                (now w + minutes (RedisSessionManager.timeout_minutes env)))
      as [_|Hlt]; [done|].
    unfold minutes, RedisSessionManager.timeout_minutes in *. lia.
Qed.

Lemma stored_later (sid : string) (s : SessionData) (w w1 : World) (l : loc)
    (t2 : Z) :
  stored env w sid s →
  SessionManager.get_session env sid w = (inr (Some l), w1) →
  (t2 - now w ≤ minutes (session_timeout_minutes (settings env)))%Z →
  stored env (set_now t2 w1) sid (SessionData_.with_last_accessed (now w) s).
Proof.
  intros Hst Hget Ht2. pose proof Hst as Hst'. revert Hst Hget.
  unfold stored, SessionManager.get_session.
  destruct (session_backend (settings env)).
  - intros (Hid & l0 & Hm & Hh & He) Hget.
    rewrite (get_session_live env sid l0 s w Hm Hh He) in Hget.
    injection Hget as <- <-. split; [done|]. exists l0.
    cbn [set_now set_heap mem_sessions heap now]. split; [done|].
    split; [apply list_lookup_insert_eq; by apply lookup_lt_Some in Hh|].
    unfold SessionData_.is_expired. cbn [SessionData_.with_last_accessed last_accessed].
    apply Z.ltb_ge. lia.
  - intros (Hid & Hv & Ht) Hget.
    rewrite (redis_get_known env sid s w Hv Hid Ht) in Hget.
    injection Hget as <- <-. split; [done|]. split; [|done].
    change (RedisServer.visible (set_now t2 (set_redis_keys ?r ?w0)))
      with (RedisServer.visible (set_redis_keys r (set_now t2 w0))).
    rewrite visible_set_redis_other, lookup_insert_eq. cbn [set_now now].
    destruct (Z.leb_spec t2
                (now w + minutes (RedisSessionManager.timeout_minutes env)))
      as [_|Hlt]; [done|].
    unfold RedisSessionManager.timeout_minutes in Hlt. lia.
Qed.

End CreateAndRefresh.

(** X3. With a positive timeout, [create_session] followed by
    [get_session] of the identifier it returned finds the new session, on
    either store: a record with that identifier and mode, no message, and
    the default content filter and story length of the settings. *)
Theorem create_then_get_session (env : Env) (mode0 : SessionMode) (w : World) :
  (0 < session_timeout_minutes (settings env))%Z →
  ∃ sid w1 l w2 s,
    SessionManager.create_session env mode0 w = (inr sid, w1) ∧
    SessionManager.get_session env sid w1 = (inr (Some l), w2) ∧
    heap w2 !! l = Some s ∧
    session_id s = sid ∧ mode s = mode0 ∧ messages s = [] ∧
    created_at s = now w ∧ last_accessed s = now w ∧
    config s !! "content_filter"
    = Some (VStr (default_content_filter (settings env))) ∧
    config s !! "max_story_length"
    = Some (VInt (max_story_length (settings env))).
Proof.
  intros Ht.
  destruct (create_session_stored env mode0 w Ht) as (w1 & Hcreate & Hst & Hnow & _).
  destruct (get_session_stored env _ _ w1 Hst) as (l & w2 & Hget & Hl & _).
  do 5 eexists. split; [exact Hcreate|]. split; [exact Hget|].
  split; [by apply upd_lookup|].
  cbn. rewrite Hnow. repeat split; try done.
Qed.

Lemma create_then_get_session_witness :
  ∃ w1 w2,
    SessionManager.create_session (sample_env Redis []) TUTOR empty_world
    = (inr "session-0", w1) ∧
    (SessionManager.get_session (sample_env Redis []) "session-0" w1)
    = (inr (Some 0), w2).
Proof.
  destruct (create_then_get_session (sample_env Redis []) TUTOR empty_world)
    as (sid & w1 & l & w2 & s & Hc & Hg & _); [done|].
  exists w1, w2.
  assert (Hsid : sid = "session-0").
  { assert (H := f_equal fst Hc). vm_compute in H. by injection H as <-. }
  subst sid. split; [done|].
  assert (Hl : (SessionManager.get_session (sample_env Redis []) "session-0"
                  (SessionManager.create_session (sample_env Redis []) TUTOR
                     empty_world).2).1 = inr (Some 0)) by (by vm_compute).
  rewrite Hc in Hl. cbn [snd] in Hl. rewrite Hg in Hl. cbn [fst] in Hl.
  injection Hl as ->. exact Hg.
Defined.

(** X4. Sliding expiry.  A lookup of a stored, live session pushes its
    deadline one timeout past the instant of the lookup: at any instant
    within one timeout of that lookup the session is found again, however
    long ago its previous access was.  This holds on both stores. *)
Theorem get_session_extends_deadline
    (env : Env) (w : World) (sid : string) (s : SessionData) :
  stored env w sid s →
  ∃ l w1,
    SessionManager.get_session env sid w = (inr (Some l), w1) ∧
    ∀ t2, (t2 - now w ≤ minutes (session_timeout_minutes (settings env)))%Z →
      ∃ l2 w2 s2,
        SessionManager.get_session env sid (set_now t2 w1) = (inr (Some l2), w2) ∧
        heap w2 !! l2 = Some s2 ∧
        last_accessed s2 = t2 ∧ messages s2 = messages s ∧ config s2 = config s.
Proof.
  intros Hst.
  destruct (get_session_stored env sid s w Hst) as (l & w1 & Hget & Hl & _).
  exists l, (upd l (SessionData_.with_last_accessed (now w) s) w1).
  split; [done|]. intros t2 Ht2.
  pose proof (stored_later env sid s w _ l t2 Hst Hget Ht2) as Hst2.
  destruct (get_session_stored env sid _ _ Hst2) as (l2 & w2 & Hget2 & Hl2 & _).
  do 3 eexists. split; [exact Hget2|]. split; [by apply upd_lookup|]. done.
Qed.

Lemma get_session_extends_deadline_witness :
  ∃ l2 w2,
    SessionManager.get_session (sample_env Memory []) "abc"
      (set_now 7000000000
         (SessionManager.get_session (sample_env Memory []) "abc"
            (mem_world 3540000000 (sample_session "abc" STORY 0 []))).2)
    = (inr (Some l2), w2).
Proof.
  destruct (get_session_extends_deadline (sample_env Memory [])
              (mem_world 3540000000 (sample_session "abc" STORY 0 []))
              "abc" (sample_session "abc" STORY 0 []))
    as (l & w1 & Hget & Hnext).
  { split; [done|]. exists 0. by vm_compute. }
  rewrite Hget. cbn [snd].
  destruct (Hnext 7000000000%Z) as (l2 & w2 & s2 & Hget2 & _); [by vm_compute|].
  by exists l2, w2.
Defined.

(** X5. On the Redis store a key whose deadline has passed behaves as an
    absent one: [get_session] returns [None], and [update_session] and
    [delete_session] return [False], each leaving the state as it was. *)
Theorem redis_expired_key_is_absent
    (env : Env) (w : World) (sid : string) (d : SessionData) (deadline : Z) :
  redis_keys w !! RedisSessionManager._get_key sid = Some (d, deadline) →
  (deadline < now w)%Z →
  RedisSessionManager.get_session env sid w = (inr None, w) ∧
  RedisSessionManager.delete_session sid w = (inr false, w) ∧
  ∀ l s, heap w !! l = Some s → session_id s = sid →
         RedisSessionManager.update_session env l w = (inr false, w).
Proof.
  intros Hk Hlate.
  assert (Hv : RedisServer.visible w (RedisSessionManager._get_key sid) = None).
  { unfold RedisServer.visible. rewrite Hk.
    destruct (Z.leb_spec (now w) deadline); [lia | done]. }
  split; [by apply redis_get_unknown|]. split.
  - unfold RedisSessionManager.delete_session. run.
    unfold RedisServer.delete. by rewrite Hv.
  - intros l s Hh <-. by apply (redis_update_unknown env l s).
Qed.

Lemma redis_expired_key_is_absent_witness :
  RedisSessionManager.get_session (sample_env Redis []) "abc"
    (redis_world 3600000001 (sample_session "abc" STORY 0 []) 3600000000)
  = (inr None,
     redis_world 3600000001 (sample_session "abc" STORY 0 []) 3600000000).
Proof.
  apply (redis_expired_key_is_absent (sample_env Redis []) _ "abc"
           (sample_session "abc" STORY 0 []) 3600000000); by vm_compute.
Defined.

Section InMemoryInvariant.

Variable env : Env.

Lemma wf_set_mem_sessions (m : gmap string loc) (w : World) :
  map_Forall (λ _ l, is_Some (heap w !! l)) m → wf (set_mem_sessions m w).
Proof. done. Qed.

Lemma wf_delete (sid : string) (w : World) :
  wf w → wf (set_mem_sessions (delete sid (mem_sessions w)) w).
Proof. intros Hwf. apply wf_set_mem_sessions. by apply map_Forall_delete. Qed.

Lemma wf_assign (l : loc) (s : SessionData) (w : World) :
  wf w → wf (set_heap (<[l := s]> (heap w)) w).
Proof.
  intros Hwf k l' Hk. specialize (Hwf k l' Hk). cbn [set_heap heap] in *.
  apply lookup_lt_is_Some. rewrite length_insert.
  by apply lookup_lt_is_Some.
Qed.

Lemma wf_get_session (sid : string) (w : World) :
  wf w → wf (InMemorySessionManager.get_session env sid w).2.
Proof.
  intros Hwf. destruct (mem_sessions w !! sid) as [l|] eqn:Hm.
  - destruct (Hwf sid l Hm) as [s Hs].
    destruct (SessionData_.is_expired s
                (InMemorySessionManager.timeout_minutes env) (now w)) eqn:He.
    + rewrite (get_session_expired env sid l s w Hm Hs He). by apply wf_delete.
    + rewrite (get_session_live env sid l s w Hm Hs He). by apply wf_assign.
  - by rewrite (get_session_absent env sid w Hm).
Qed.

Lemma wf_update_session (l : loc) (w : World) :
  wf w → wf (InMemorySessionManager.update_session l w).2.
Proof.
  intros Hwf. destruct (heap w !! l) as [s|] eqn:Hs.
  - destruct (mem_sessions w !! session_id s) as [l0|] eqn:Hm.
    + rewrite (update_session_known l s l0 w Hs Hm).
      apply wf_set_mem_sessions. apply map_Forall_insert_2; [eauto | done].
    + by rewrite (update_session_unknown l s w Hs Hm).
  - unfold InMemorySessionManager.update_session. run. by rewrite Hs.
Qed.

Lemma wf_create_session (mode : SessionMode) (w : World) :
  wf w → wf (InMemorySessionManager.create_session env mode w).2.
Proof.
  intros Hwf. unfold InMemorySessionManager.create_session, draw_uuid. run.
  cbn [snd]. intros k l Hk.
  cbn [set_mem_sessions set_heap mem_sessions heap] in *.
  apply lookup_insert_Some in Hk as [[_ <-] | [_ Hk]].
  - rewrite heap_alloc_lookup. eauto.
  - destruct (Hwf k l Hk) as [s Hs]. exists s. by apply lookup_app_l_Some.
Qed.

Lemma wf_cleanup (w : World) :
  wf w → wf (InMemorySessionManager.cleanup_expired_sessions env w).2.
Proof.
  intros Hwf.
  destruct (cleanup_expired_sessions_eq env w Hwf) as (w' & -> & Hm & Hh & _).
  cbn [snd]. unfold wf. rewrite Hm, Hh.
  intros k l [Hk _]%map_lookup_filter_Some. by apply (Hwf k l).
Qed.

End InMemoryInvariant.

(** X6. The in-process store never holds a dangling reference: if every
    identifier of the dict leads to a session object, this is still so after
    [create_session], [get_session], [update_session], [delete_session] and
    [cleanup_expired_sessions], whatever their arguments and outcome. *)
Theorem in_memory_store_stays_well_formed (env : Env) (w : World) :
  wf w →
  (∀ mode, wf (InMemorySessionManager.create_session env mode w).2) ∧
  (∀ sid, wf (InMemorySessionManager.get_session env sid w).2) ∧
  (∀ l, wf (InMemorySessionManager.update_session l w).2) ∧
  (∀ sid, wf (InMemorySessionManager.delete_session sid w).2) ∧
  wf (InMemorySessionManager.cleanup_expired_sessions env w).2.
Proof.
  intros Hwf. split; [intros; by apply wf_create_session|].
  split; [intros; by apply wf_get_session|].
  split; [intros; by apply wf_update_session|].
  split; [|by apply wf_cleanup].
  intros sid. rewrite delete_session_eq. by apply wf_delete.
Qed.

Lemma in_memory_store_stays_well_formed_witness :
  wf (InMemorySessionManager.get_session (sample_env Memory []) "abc"
        (mem_world 3660000000 (sample_session "abc" STORY 0 []))).2.
Proof.
  apply (in_memory_store_stays_well_formed (sample_env Memory [])
           (mem_world 3660000000 (sample_session "abc" STORY 0 []))).
  intros sid l Hl. unfold mem_world, sample_session in Hl.
  cbn [mem_sessions session_id] in Hl.
  apply lookup_singleton_Some in Hl as [_ <-]. by eexists.
Defined.

(** X7. The sweep of the in-process store leaves no expired session behind:
    a second sweep at the same instant returns 0 and removes nothing, and
    every session that remains is within its timeout. *)
Theorem cleanup_twice_removes_nothing (env : Env) (w : World) :
  wf w →
  let w' := (InMemorySessionManager.cleanup_expired_sessions env w).2 in
  (InMemorySessionManager.cleanup_expired_sessions env w').1 = inr 0 ∧
  mem_sessions (InMemorySessionManager.cleanup_expired_sessions env w').2
  = mem_sessions w' ∧
  ∀ sid l s, mem_sessions w' !! sid = Some l → heap w' !! l = Some s →
    (age w' s ≤ minutes (session_timeout_minutes (settings env)))%Z.
Proof.
  intros Hwf w'.
  pose proof (wf_cleanup env w Hwf) as Hwf'. fold w' in Hwf'.
  destruct (cleanup_expired_sessions_eq env w Hwf) as (w1 & Hrun & Hm & Hh & Hn & _).
  assert (Hw' : w' = w1) by (subst w'; by rewrite Hrun).
  assert (Hlive : ∀ sid l, mem_sessions w' !! sid = Some l →
                           is_expired_at env w' l = false).
  { intros sid l Hl. rewrite Hw', Hm in Hl.
    apply map_lookup_filter_Some in Hl as [_ He]. simpl in He.
    unfold is_expired_at in *. by rewrite Hw', Hh, Hn. }
  destruct (cleanup_expired_sessions_eq env w' Hwf') as (w2 & Hrun2 & Hm2 & _).
  assert (Hnone : filter (λ kv : string * loc, is_expired_at env w' kv.2 = true)
                         (mem_sessions w') = ∅).
  { apply map_empty. intros k. apply map_lookup_filter_None.
    destruct (mem_sessions w' !! k) as [l|] eqn:Hl; [|by left].
    right. intros l' [= <-]. simpl. by rewrite (Hlive k l Hl). }
  rewrite Hrun2, Hnone. cbn [fst snd]. split; [done|]. split.
  - rewrite Hm2. apply map_filter_id. intros k l Hl. simpl. by apply (Hlive k l).
  - intros sid l s Hl Hs. specialize (Hlive sid l Hl).
    unfold is_expired_at in Hlive. rewrite Hs in Hlive.
    apply not_true_iff_false in Hlive. rewrite is_expired_age in Hlive. lia.
Qed.

Lemma cleanup_twice_removes_nothing_witness :
  (InMemorySessionManager.cleanup_expired_sessions (sample_env Memory [])
     (InMemorySessionManager.cleanup_expired_sessions (sample_env Memory [])
        (mem_world 3660000000 (sample_session "abc" STORY 0 []))).2).1 = inr 0.
Proof.
  apply (cleanup_twice_removes_nothing (sample_env Memory [])
           (mem_world 3660000000 (sample_session "abc" STORY 0 []))).
  intros sid l Hl. unfold mem_world, sample_session in Hl.
  cbn [mem_sessions session_id] in Hl.
  apply lookup_singleton_Some in Hl as [_ <-]. by eexists.
Defined.

(* ===================================================================== *)
(** * Part IV: further properties of the filters                          *)
(* ===================================================================== *)

Section OtherFilters.

Import PyStr.

Lemma educational_elements_lower :
  Forall (λ k, lower k = k) EducationalFilter.educational_elements.
Proof. repeat constructor. Qed.

Lemma educational_topics_lower :
  Forall (λ k, lower k = k) EducationalFilter.educational_topics.
Proof. repeat constructor. Qed.

Lemma fun_elements_lower : Forall (λ k, lower k = k) FunOnlyFilter.fun_elements.
Proof. repeat constructor. Qed.

Lemma serious_topics_lower : Forall (λ k, lower k = k) FunOnlyFilter.serious_topics.
Proof. repeat constructor. Qed.

Lemma found_none_iff (keywords : list string) (content : string) :
  Forall (λ k, lower k = k) keywords →
  (length (List.filter (λ k, contains k (lower content)) keywords) =? 0)%nat = true
  ↔ ¬ ∃ k, In k keywords ∧ occurs_ci k content.
Proof.
  intros Hlow. rewrite length_zero_no_member. split.
  - intros H (k & Hk). apply (H k). by apply found_keywords.
  - intros H k Hk. apply H. exists k. by apply (found_keywords keywords content k).
Qed.

Lemma found_some (keywords : list string) (content : string) :
  Forall (λ k, lower k = k) keywords →
  (length (List.filter (λ k, contains k (lower content)) keywords) =? 0)%nat = false
  → ∃ k, In k keywords ∧ occurs_ci k content.
Proof.
  intros Hlow E.
  destruct (List.filter (λ k, contains k (lower content)) keywords) as [|k l] eqn:El;
    [discriminate|].
  exists k. apply (found_keywords keywords content k Hlow). rewrite El. by left.
Qed.

Lemma NoDup_list_filter {A : Type} (b : A → bool) (l : list A) :
  List.NoDup l → List.NoDup (List.filter b l).
Proof.
  induction 1 as [|x l Hx Hl IH]; simpl; [constructor|].
  destruct (b x); [|done]. constructor; [|done].
  intros [Hin _]%filter_In. done.
Qed.

End OtherFilters.

(** X8. [EducationalFilter.validate] accepts a content exactly when one of
    the twenty educational elements or one of the fifteen topics occurs in
    it, up to case; otherwise it returns its one fixed reason.  The two
    examples of the specification evaluate as stated. *)
Theorem educational_validate_spec (content : string) :
  (EducationalFilter.validate content = (true, None) ↔
   ∃ k, (In k EducationalFilter.educational_elements ∨
         In k EducationalFilter.educational_topics) ∧ occurs_ci k content) ∧
  (EducationalFilter.validate content = (true, None) ∨
   EducationalFilter.validate content
   = (false, Some "Story should include educational elements or teach something valuable")) ∧
  EducationalFilter.validate "Let's count to ten and learn about the ocean"
  = (true, None) ∧
  (EducationalFilter.validate "A silly adventure with no lesson").1 = false.
Proof.
  split; [|split; [|split; reflexivity]].
  - unfold EducationalFilter.validate. cbv zeta.
    set (ne := length (List.filter _ EducationalFilter.educational_elements)).
    set (nt := length (List.filter _ EducationalFilter.educational_topics)).
    destruct (ne =? 0)%nat eqn:E1; destruct (nt =? 0)%nat eqn:E2; cbn [andb].
    + split; [done|]. intros (k & [Hk|Hk] & Ho).
      * apply (found_none_iff _ content educational_elements_lower) in E1.
        exfalso. apply E1. eauto.
      * apply (found_none_iff _ content educational_topics_lower) in E2.
        exfalso. apply E2. eauto.
    + split; [intros _|done].
      destruct (found_some _ content educational_topics_lower E2) as (k & Hk & Ho).
      eauto.
    + split; [intros _|done].
      destruct (found_some _ content educational_elements_lower E1) as (k & Hk & Ho).
      eauto.
    + split; [intros _|done].
      destruct (found_some _ content educational_elements_lower E1) as (k & Hk & Ho).
      eauto.
  - unfold EducationalFilter.validate. cbv zeta. destruct (_ && _); eauto.
Qed.

(** X9. [FunOnlyFilter.validate] counts the fun elements and the serious
    topics that occur in the content up to case, each keyword once, and the
    exclamation marks.  It rejects, in this order, fewer than two fun
    elements, more than two serious topics, fewer than three exclamation
    marks, and accepts otherwise.  Since "fun" occurs inside "funny", one
    occurrence of "funny" already counts as two fun elements. *)
Theorem fun_only_validate_spec (content : string) :
  ∃ fun_found serious_found : list string,
    List.NoDup fun_found ∧ List.NoDup serious_found ∧
    (∀ k, In k fun_found ↔ In k FunOnlyFilter.fun_elements ∧ occurs_ci k content) ∧
    (∀ k, In k serious_found ↔
          In k FunOnlyFilter.serious_topics ∧ occurs_ci k content) ∧
    FunOnlyFilter.validate content
    = (if (length fun_found <? 2)%nat
       then (false, Some "Story needs more fun, silly, or exciting elements!")
       else if (2 <? length serious_found)%nat
       then (false, Some "Story is too serious - make it more fun and playful!")
       else if (PyStr.count "!" content <? 3)%nat
       then (false, Some "Story needs more excitement and energy!")
       else (true, None)) ∧
    (FunOnlyFilter.validate content = (true, None) ↔
     2 ≤ length fun_found ∧ length serious_found ≤ 2 ∧
     3 ≤ PyStr.count "!" content) ∧
    (occurs_ci "funny" content → 2 ≤ length fun_found).
Proof.
  exists (List.filter (λ k, PyStr.contains k (PyStr.lower content))
                      FunOnlyFilter.fun_elements),
         (List.filter (λ k, PyStr.contains k (PyStr.lower content))
                      FunOnlyFilter.serious_topics).
  set (ff := List.filter _ FunOnlyFilter.fun_elements).
  set (sf := List.filter _ FunOnlyFilter.serious_topics).
  assert (Hff : ∀ k, In k ff ↔ In k FunOnlyFilter.fun_elements ∧ occurs_ci k content).
  { intros k. apply found_keywords, fun_elements_lower. }
  split. { apply NoDup_list_filter. repeat constructor; simpl; intuition discriminate. }
  split. { apply NoDup_list_filter. repeat constructor; simpl; intuition discriminate. }
  split; [exact Hff|].
  split. { intros k. apply found_keywords, serious_topics_lower. }
  split; [reflexivity|]. split.
  - unfold FunOnlyFilter.validate. cbv zeta. fold ff sf.
    destruct (Nat.ltb_spec (length ff) 2); [split; [done | lia]|].
    destruct (Nat.ltb_spec 2 (length sf)); [split; [done | lia]|].
    destruct (Nat.ltb_spec (PyStr.count "!" content) 3); [split; [done | lia]|].
    split; [lia | done].
  - intros Hfunny.
    assert (H1 : In "funny" ff) by (apply Hff; split; [simpl; tauto | done]).
    assert (H2 : In "fun" ff).
    { apply Hff. split; [simpl; tauto|].
      destruct Hfunny as (a & m & b & -> & Hm).
      destruct m as [|c1 [|c2 [|c3 m]]]; try discriminate.
      exists a, (String c1 (String c2 (String c3 ""))), (m +:+ b).
      split.
      - by rewrite !app_cons, app_nil_l.
      - simpl in *. by injection Hm as -> -> -> _. }
    clear Hff. clearbody ff. destruct ff as [|x [|y ff']].
    + destruct H1.
    + destruct H1 as [->|[]]. destruct H2 as [H2|[]]. discriminate.
    + simpl. lia.
Qed.

(** X10. [FunOnlyFilter.apply] leaves a content without exclamation mark
    unchanged, and gives a content with at least one of them at least three:
    after [apply], [validate] never rejects such a content for lack of
    excitement. *)
Theorem fun_only_apply_then_validate (content : string) :
  (PyStr.count "!" content = 0 → FunOnlyFilter.apply content = content) ∧
  (0 < PyStr.count "!" content →
     3 ≤ PyStr.count "!" (FunOnlyFilter.apply content) ∧
     FunOnlyFilter.validate (FunOnlyFilter.apply content)
     ≠ (false, Some "Story needs more excitement and energy!")).
Proof.
  split.
  - unfold FunOnlyFilter.apply. induction content as [|c s IH]; [done|].
    cbn [PyStr.count PyStr.replace]. destruct (Ascii.eqb c "!"); [lia|].
    intros H. by rewrite IH.
  - intros Hpos.
    assert (H3 : 3 ≤ PyStr.count "!" (FunOnlyFilter.apply content)).
    { rewrite fun_apply_count. lia. }
    split; [done|].
    unfold FunOnlyFilter.validate. cbv zeta.
    destruct (_ <? 2)%nat; [discriminate|].
    destruct (2 <? _)%nat; [discriminate|].
    destruct (Nat.ltb_spec (PyStr.count "!" (FunOnlyFilter.apply content)) 3);
      [lia | discriminate].
Qed.

Lemma fun_only_apply_then_validate_witness :
  FunOnlyFilter.apply "We laughed and danced." = "We laughed and danced." ∧
  FunOnlyFilter.validate (FunOnlyFilter.apply "We laughed and danced at the party!")
  ≠ (false, Some "Story needs more excitement and energy!").
Proof.
  split.
  - apply (fun_only_apply_then_validate "We laughed and danced."). reflexivity.
  - apply (fun_only_apply_then_validate "We laughed and danced at the party!").
    vm_compute. lia.
Defined.

Section MoralUnchanged.

Import PyStr.

Lemma ci_strip_spec (w s rest : string) :
  ci_strip w s = Some rest → ∃ m, s = m +:+ rest ∧ lower m = lower w.
Proof.
  revert s. induction w as [|a w IH]; intros s H; simpl in H.
  - injection H as <-. by exists "".
  - destruct s as [|b s]; [discriminate|].
    destruct (ci_char_eqb a b) eqn:E; [|discriminate].
    destruct (IH s H) as (m & -> & Hm).
    exists (String b m). split; [done|]. simpl. rewrite Hm.
    unfold ci_char_eqb in E. apply Ascii.eqb_eq in E. by rewrite E.
Qed.

Lemma occurs_ci_tail (w s : string) (c : ascii) :
  occurs_ci w s → occurs_ci w (String c s).
Proof.
  intros (a & m & b & -> & Hm). exists (String c a), m, b. by rewrite app_cons.
Qed.

Lemma sub_scan_no_occurrence (w repl s : string) (prev : bool) :
  ¬ occurs_ci w s → sub_scan w repl prev 0 s = s.
Proof.
  revert prev. induction s as [|c s IH]; intros prev Hno; [done|].
  cbn [sub_scan].
  assert (Hm : match_here w (String c s) = false).
  { unfold match_here. destruct (ci_strip w (String c s)) as [rest|] eqn:E; [|done].
    exfalso. apply Hno. destruct (ci_strip_spec _ _ _ E) as (m & Hs & Hm).
    exists "", m, rest. by rewrite app_nil_l. }
  rewrite Hm, andb_false_r. f_equal. apply IH.
  intros H. by apply Hno, occurs_ci_tail.
Qed.

End MoralUnchanged.

(** X11. [MoralValuesFilter.apply] returns unchanged every content in which
    none of the nine words of its table occurs, in any case, not even inside
    a longer word. *)
Theorem moral_apply_unchanged (content : string) :
  (∀ wr, In wr MoralValuesFilter.replacements → ¬ occurs_ci wr.1 content) →
  MoralValuesFilter.apply content = content.
Proof.
  unfold MoralValuesFilter.apply.
  induction MoralValuesFilter.replacements as [|wr l IH]; intros Hno; [done|].
  cbn [fold_left]. unfold PyStr.sub_word at 2.
  rewrite sub_scan_no_occurrence by (apply Hno; by left).
  apply IH. intros wr' Hwr'. apply Hno. by right.
Qed.

Lemma moral_apply_unchanged_witness :
  MoralValuesFilter.apply "A story about sharing and friendship"
  = "A story about sharing and friendship".
Proof.
  apply moral_apply_unchanged. intros wr Hwr.
  assert (Hc : PyStr.contains wr.1
                 (PyStr.lower "A story about sharing and friendship") = false).
  { simpl in Hwr.
    repeat (destruct Hwr as [<-|Hwr]; [reflexivity|]). destruct Hwr. }
  intros Ho. apply contains_lower_ci in Ho.
  - congruence.
  - simpl in Hwr.
    repeat (destruct Hwr as [<-|Hwr]; [reflexivity|]). destruct Hwr.
Defined.

(* ===================================================================== *)
(** * Part V: further properties of the services                          *)
(* ===================================================================== *)

(** ** Counting the calls of the language model *)

Section Calls.

Variable env : Env.

Lemma calls_le_ret {A : Type} (n : nat) (a : A) : calls_le n (mret a).
Proof. intros w. simpl. lia. Qed.

Lemma calls_le_raise {A : Type} (n : nat) (e : Exn) : calls_le n (raise (A:=A) e).
Proof. intros w. simpl. lia. Qed.

Lemma calls_le_bind {A B : Type} (a b : nat) (m : M A) (f : A → M B) :
  calls_le a m → (∀ x, calls_le b (f x)) → calls_le (a + b) (m ≫= f).
Proof.
  intros Hm Hf w. specialize (Hm w). unfold mbind, M_bind.
  destruct (m w) as [[e|x] w1]; simpl in *; [lia|].
  specialize (Hf x w1). lia.
Qed.

Lemma calls_le_bind0 {A B : Type} (n : nat) (m : M A) (f : A → M B) :
  calls_le 0 m → (∀ x, calls_le n (f x)) → calls_le n (m ≫= f).
Proof. apply (calls_le_bind 0 n). Qed.

Lemma calls_le_bind_head {A B : Type} (n : nat) (m : M A) (f : A → M B) :
  calls_le n m → (∀ x, calls_le 0 (f x)) → calls_le n (m ≫= f).
Proof.
  intros Hm Hf. replace n with (n + 0) by lia. by apply calls_le_bind.
Qed.

Lemma calls_le_mono {A : Type} (n n' : nat) (m : M A) :
  n ≤ n' → calls_le n m → calls_le n' m.
Proof. intros Hn Hm w. specialize (Hm w). lia. Qed.

Lemma calls_le_generate (n : nat) (msgs : list Message) :
  calls_le (S n) (generate env msgs).
Proof.
  intros w. unfold generate.
  destruct (llm_generate env _ msgs); simpl; rewrite length_app; simpl; lia.
Qed.

Lemma calls_le_generate_bind {B : Type} (n : nat) (msgs : list Message)
    (f : string → M B) :
  (∀ x, calls_le n (f x)) → calls_le (S n) (generate env msgs ≫= f).
Proof.
  intros Hf. replace (S n) with (1 + n) by lia.
  apply calls_le_bind; [apply calls_le_generate | done].
Qed.

Lemma calls_le_deref (n : nat) (l : loc) : calls_le n (deref l).
Proof. intros w. unfold deref. destruct (heap w !! l); simpl; lia. Qed.

Lemma calls_le_assign (n : nat) (l : loc) (s : SessionData) :
  calls_le n (assign l s).
Proof. intros w. simpl. lia. Qed.

Lemma calls_le_alloc (n : nat) (s : SessionData) : calls_le n (alloc s).
Proof. intros w. simpl. lia. Qed.

Lemma calls_le_utcnow (n : nat) : calls_le n utcnow.
Proof. intros w. simpl. lia. Qed.

Lemma calls_le_get_world (n : nat) : calls_le n get_world.
Proof. intros w. simpl. lia. Qed.

Lemma calls_le_draw_uuid (n : nat) : calls_le n (draw_uuid env).
Proof. intros w. simpl. lia. Qed.

Lemma calls_le_ContentFilter_of (n : nat) (v : PyVal) :
  calls_le n (ContentFilter_of v).
Proof.
  intros w. unfold ContentFilter_of. destruct v as [s|z]; [|simpl; lia].
  repeat (destruct (String.eqb s _); [simpl; lia|]). simpl. lia.
Qed.

Lemma calls_le_as_str (n : nat) (v : PyVal) : calls_le n (as_str v).
Proof. intros w. destruct v; simpl; lia. Qed.

Lemma calls_le_gt_config (n k : nat) (v : PyVal) : calls_le n (gt_config k v).
Proof. intros w. destruct v; simpl; lia. Qed.

Lemma calls_le_memory_delete (n : nat) (sid : string) :
  calls_le n (InMemorySessionManager.delete_session sid).
Proof. intros w. rewrite delete_session_eq. simpl. lia. Qed.

Lemma calls_le_redis_get (n : nat) (key : string) : calls_le n (RedisServer.get key).
Proof. intros w. simpl. lia. Qed.

Lemma calls_le_redis_exists (n : nat) (key : string) :
  calls_le n (RedisServer.exists_ key).
Proof. intros w. simpl. lia. Qed.

Lemma calls_le_redis_setex (n : nat) (key : string) (ttl : Z) (v : SessionData) :
  calls_le n (RedisServer.setex key ttl v).
Proof. intros w. unfold RedisServer.setex. destruct (ttl <=? 0)%Z; simpl; lia. Qed.

Lemma calls_le_redis_delete (n : nat) (key : string) :
  calls_le n (RedisServer.delete key).
Proof.
  intros w. unfold RedisServer.delete.
  destruct (RedisServer.visible w key); simpl; lia.
Qed.

Lemma calls_le_put_world_sessions (n : nat) (m : gmap string loc → gmap string loc) :
  calls_le n (get_world ≫= λ w, put_world (set_mem_sessions (m (mem_sessions w)) w)).
Proof. intros w. simpl. lia. Qed.

End Calls.

Create HintDb calls.
#[export] Hint Resolve calls_le_ret calls_le_raise calls_le_deref calls_le_assign
  calls_le_alloc calls_le_utcnow calls_le_get_world calls_le_draw_uuid
  calls_le_ContentFilter_of calls_le_as_str calls_le_gt_config
  calls_le_memory_delete calls_le_redis_get calls_le_redis_exists
  calls_le_redis_setex calls_le_redis_delete calls_le_generate : calls.

Ltac quiet :=
  repeat
    (intros;
     lazymatch goal with
     | |- calls_le _ (mret _) => apply calls_le_ret
     | |- calls_le _ (raise _) => apply calls_le_raise
     | |- calls_le _ (get_world ≫= λ w, put_world _) =>
         apply (calls_le_put_world_sessions _ (λ m, _))
     | |- calls_le _ (_ ≫= _) => apply calls_le_bind0
     | |- calls_le _ (match ?x with _ => _ end) => destruct x
     | |- calls_le _ _ => solve [auto with calls]
     end).

Section CallsOfTheStores.

Variable env : Env.

Lemma calls_le_messages_append (n : nat) (l : loc) (m : Message) :
  calls_le n (SessionData_.messages_append l m).
Proof. unfold SessionData_.messages_append. apply (calls_le_mono 0); [lia|]. quiet. Qed.

Lemma calls_le_add_message (n : nat) (l : loc) (r c : string) :
  calls_le n (SessionData_.add_message l r c).
Proof.
  unfold SessionData_.add_message. apply (calls_le_mono 0); [lia|].
  apply calls_le_bind0; [apply calls_le_messages_append|]. quiet.
Qed.

Lemma calls_le_config_set (n : nat) (l : loc) (k : string) (v : PyVal) :
  calls_le n (SessionData_.config_set l k v).
Proof. unfold SessionData_.config_set. apply (calls_le_mono 0); [lia|]. quiet. Qed.

Lemma calls_le_config_update (n : nat) (l : loc) (d : gmap string PyVal) :
  calls_le n (SessionData_.config_update l d).
Proof. unfold SessionData_.config_update. apply (calls_le_mono 0); [lia|]. quiet. Qed.

Lemma calls_le_get_messages (n : nat) (l : loc) : calls_le n (get_messages l).
Proof. unfold get_messages. apply (calls_le_mono 0); [lia|]. quiet. Qed.

Lemma calls_le_config_get (n : nat) (l : loc) (k : string) :
  calls_le n (config_get l k).
Proof. unfold config_get. apply (calls_le_mono 0); [lia|]. quiet. Qed.

Lemma calls_le_create_session (n : nat) (mode : SessionMode) :
  calls_le n (SessionManager.create_session env mode).
Proof.
  intros w. unfold SessionManager.create_session.
  destruct (session_backend (settings env)).
  - unfold InMemorySessionManager.create_session, draw_uuid. run. simpl. lia.
  - unfold RedisSessionManager.create_session, draw_uuid. run.
    unfold RedisServer.setex. destruct (_ <=? 0)%Z; simpl; lia.
Qed.

Lemma calls_le_redis_update (n : nat) (l : loc) :
  calls_le n (RedisSessionManager.update_session env l).
Proof.
  unfold RedisSessionManager.update_session. apply (calls_le_mono 0); [lia|]. quiet.
Qed.

Lemma calls_le_update_session (n : nat) (l : loc) :
  calls_le n (SessionManager.update_session env l).
Proof.
  unfold SessionManager.update_session.
  destruct (session_backend (settings env)); [|apply calls_le_redis_update].
  intros w. unfold InMemorySessionManager.update_session. run.
  destruct (heap w !! l) as [s|]; [|simpl; lia].
  destruct (mem_sessions w !! session_id s); simpl; lia.
Qed.

Lemma calls_le_get_session (n : nat) (sid : string) :
  calls_le n (SessionManager.get_session env sid).
Proof.
  unfold SessionManager.get_session. apply (calls_le_mono 0); [lia|].
  destruct (session_backend (settings env)).
  - unfold InMemorySessionManager.get_session. quiet.
  - unfold RedisSessionManager.get_session. quiet.
    apply calls_le_redis_update.
Qed.

End CallsOfTheStores.

#[export] Hint Resolve calls_le_messages_append calls_le_add_message
  calls_le_config_set calls_le_config_update calls_le_get_messages
  calls_le_config_get calls_le_create_session calls_le_update_session
  calls_le_get_session : calls.

Ltac count_calls :=
  repeat
    (intros;
     lazymatch goal with
     | |- calls_le _ (mret _) => apply calls_le_ret
     | |- calls_le _ (raise _) => apply calls_le_raise
     | |- calls_le _ (generate _ _ ≫= _) => apply calls_le_generate_bind
     | |- calls_le _ (_ ≫= _) =>
         first [ apply calls_le_bind0; [solve [quiet]|]
               | apply calls_le_bind_head ]
     | |- calls_le _ (match ?x with _ => _ end) => destruct x
     | |- calls_le _ _ => solve [auto with calls]
     end).

Section CallsOfTheServices.

Variable env : Env.

Lemma process_question_calls (l : loc) (question : string) (hint : option string) :
  calls_le 2 (TutorService._process_question env l question hint).
Proof. unfold TutorService._process_question. count_calls. Qed.

Lemma ask_question_calls (request : TutorAskRequest.t) :
  calls_le 2 (TutorService.ask_question env request).
Proof.
  unfold TutorService.ask_question. count_calls. apply process_question_calls.
Qed.

Lemma continue_story_calls (request : StoryContinueRequest.t) :
  calls_le 2 (StoryService.continue_story env request).
Proof. unfold StoryService.continue_story. count_calls. Qed.

Lemma start_story_calls (request : StoryStartRequest.t) :
  calls_le 2 (StoryService.start_story env request).
Proof. unfold StoryService.start_story. count_calls. Qed.

Lemma tutor_update_config_calls (request : ConfigRequest.t) :
  calls_le 0 (TutorService.update_config env request).
Proof. unfold TutorService.update_config. count_calls. Qed.

Lemma tutor_get_session_info_calls (sid : string) :
  calls_le 0 (TutorService.get_session_info env sid).
Proof. unfold TutorService.get_session_info. count_calls. Qed.

End CallsOfTheServices.

(** ** Running a turn *)

Section TurnSteps.

Variable env : Env.

Lemma after_update_frame (l : loc) (s : SessionData) (w : World) :
  heap (after_update env l s w).2 = heap w ∧
  now (after_update env l s w).2 = now w ∧
  llm_calls (after_update env l s w).2 = llm_calls w ∧
  uuid_drawn (after_update env l s w).2 = uuid_drawn w.
Proof.
  unfold after_update. destruct (session_backend (settings env)).
  - by destruct (mem_sessions w !! session_id s).
  - cbv zeta. by destruct (bool_decide _).
Qed.

Lemma update_session_run (l : loc) (s : SessionData) (w : World) :
  l < length (heap w) → ttl_ok env →
  SessionManager.update_session env l (upd l s w)
  = (inr (after_update env l s w).1, upd l s (after_update env l s w).2).
Proof.
  intros Hl Httl. unfold SessionManager.update_session, after_update, ttl_ok in *.
  destruct (session_backend (settings env)).
  - unfold InMemorySessionManager.update_session.
    rewrite (bind_ok _ _ _ _ _ (deref_upd l s w Hl)). run.
    change (mem_sessions (upd l s w)) with (mem_sessions w).
    by destruct (mem_sessions w !! session_id s).
  - unfold RedisSessionManager.update_session.
    rewrite (bind_ok _ _ _ _ _ (deref_upd l s w Hl)). run.
    unfold RedisServer.exists_.
    change (RedisServer.visible (upd l s w)) with (RedisServer.visible w).
    destruct (bool_decide _); cbn [negb]; [|done].
    unfold RedisServer.setex.
    destruct (Z.leb_spec (minutes (RedisSessionManager.timeout_minutes env)) 0)
      as [Hle|_]; [|done].
    unfold minutes, RedisSessionManager.timeout_minutes in Hle. lia.
Qed.

End TurnSteps.
